(** * Aurora Finance: the client-side store [use-app-store.ts]

    A shallow embedding of the zustand store of
    [src/app/src/store/use-app-store.ts] and the properties of its
    operations, with the callers that decide what reaches the store
    ([useAuth], the handlers of the budgeting, transactions and profile
    pages) and the totals of [src/app/src/utils/format.ts].

    Conventions of the embedding.
    - A JavaScript string is a [string]; each [ascii] is read as one code
      unit in the range U+0000..U+00FF, on which [trim] and [toLowerCase]
      are written out in full.
    - A JavaScript [number] is a [spec_float] (IEEE 754 value, with NaN,
      signed zeros and infinities).
    - An optional property ([x?: T]) is an [option].
    - [nanoid()], [new Date().toISOString()], [addMonths(new Date(), 1)]
      and the synthetic import generator read the environment; their
      results are passed to the operation that consumes them.
    - An operation is a computation over the store state that either
      returns or throws, and always leaves a final state. *)

From Stdlib Require Import Bool List String Ascii NArith ZArith Lia.
From Stdlib Require Import SpecFloat.
Import ListNotations.
Open Scope string_scope.

(** ** JavaScript strings *)

Module Js.

(** Code units that [String.prototype.trim] strips, below U+0100:
    TAB, LF, VT, FF, CR, SPACE and NO-BREAK SPACE. *)
Definition isWhiteSpace (c : ascii) : bool :=
  let n := N_of_ascii c in
  ((9 <=? n) && (n <=? 13) || (n =? 32) || (n =? 160))%N.

(** [toLowerCase] on one code unit below U+0100: A-Z and the Latin-1
    capitals U+00C0..U+00DE (without the multiplication sign U+00D7)
    move up by 32. *)
Definition lowerCodeUnit (c : ascii) : ascii :=
  let n := N_of_ascii c in
  if ((65 <=? n) && (n <=? 90)
      || (192 <=? n) && (n <=? 222) && negb (n =? 215))%N
  then ascii_of_N (n + 32) else c.

Fixpoint toLowerCase (s : string) : string :=
  match s with
  | EmptyString => EmptyString
  | String c r => String (lowerCodeUnit c) (toLowerCase r)
  end.

Fixpoint trimStart (s : string) : string :=
  match s with
  | EmptyString => EmptyString
  | String c r => if isWhiteSpace c then trimStart r else s
  end.

Fixpoint trimEnd (s : string) : string :=
  match s with
  | EmptyString => EmptyString
  | String c r =>
      match trimEnd r with
      | EmptyString =>
          if isWhiteSpace c then EmptyString else String c EmptyString
      | r' => String c r'
      end
  end.

Definition trim (s : string) : string := trimEnd (trimStart s).

(** [!s] for a string [s]: only the empty string is falsy. *)
Definition falsy (s : string) : bool :=
  match s with EmptyString => true | _ => false end.

(** [xs.includes(x)] on an array of strings. *)
Definition includes (xs : list string) (x : string) : bool :=
  existsb (String.eqb x) xs.

(** [typeof x === 'boolean' ? x : d] (and the like) on an optional
    property. *)
Definition orKeep {A} (x : option A) (d : option A) : option A :=
  match x with Some _ => x | None => d end.

(** A JavaScript number. *)
Definition number : Type := spec_float.

Definition zero : number := S754_zero false.

(** [x <= y] *)
Definition le (x y : number) : bool := SFleb x y.

(** [x < y] *)
Definition lt (x y : number) : bool := SFltb x y.

(** The number of an integer literal, as a mantissa with exponent 0; the
    store compares numbers with zero only, where the sign decides. *)
Definition ofZ (z : Z) : number :=
  match z with
  | Z0 => zero
  | Zpos p => S754_finite false p 0
  | Zneg p => S754_finite true p 0
  end.

End Js.

(** ** Data model *)

Inductive PlanTier := free | premium.

Inductive SubscriptionStatus := active | past_due.

Record UserSettings := mkUserSettings {
  currency : string;
  notifications : bool;
  darkMode : bool;
  haptics : bool
}.

Record Subscription := mkSubscription {
  tier : PlanTier;
  renewalDate : option string;
  status : SubscriptionStatus
}.

Record User := mkUser {
  user_id : string;
  email : string;
  name : string;
  passwordHash : string;
  user_createdAt : string;
  subscription : Subscription;
  settings : UserSettings;
  categories : list string
}.

Record Receipt := mkReceipt {
  receipt_id : string;
  fileName : string;
  dataUrl : string;
  uploadedAt : string
}.

Inductive TransactionSource := manual | imported.

Inductive TransactionType := income | expense.

Record Transaction := mkTransaction {
  tx_id : string;
  tx_userId : string;
  tx_type : TransactionType;
  tx_category : string;
  amount : Js.number;
  date : string;
  notes : option string;
  receiptId : option string;
  source : TransactionSource;
  tx_createdAt : string
}.

Record Budget := mkBudget {
  budget_id : string;
  budget_userId : string;
  budget_category : string;
  limit : Js.number;
  budget_createdAt : string;
  rollover : option bool;
  alertThreshold : option Js.number
}.

Inductive Period := weekly | monthly.

Record AnalyticsLog := mkAnalyticsLog {
  log_id : string;
  log_userId : string;
  period : Period;
  sentAt : string
}.

Record AppState := mkAppState {
  users : list User;
  receipts : list Receipt;
  transactions : list Transaction;
  budgets : list Budget;
  analyticsLog : list AnalyticsLog;
  currentUserId : option string
}.

(** The state the store is created with. *)
Definition initialState : AppState :=
  mkAppState [] [] [] [] [] None.

(** Partial state updates, as [set({ field: ... })] merges them. *)
Definition set_users (f : list User -> list User) (s : AppState) :=
  mkAppState (f (users s)) (receipts s) (transactions s) (budgets s)
             (analyticsLog s) (currentUserId s).
Definition set_receipts (f : list Receipt -> list Receipt) (s : AppState) :=
  mkAppState (users s) (f (receipts s)) (transactions s) (budgets s)
             (analyticsLog s) (currentUserId s).
Definition set_transactions
  (f : list Transaction -> list Transaction) (s : AppState) :=
  mkAppState (users s) (receipts s) (f (transactions s)) (budgets s)
             (analyticsLog s) (currentUserId s).
Definition set_budgets (f : list Budget -> list Budget) (s : AppState) :=
  mkAppState (users s) (receipts s) (transactions s) (f (budgets s))
             (analyticsLog s) (currentUserId s).
Definition set_analyticsLog
  (f : list AnalyticsLog -> list AnalyticsLog) (s : AppState) :=
  mkAppState (users s) (receipts s) (transactions s) (budgets s)
             (f (analyticsLog s)) (currentUserId s).
Definition set_currentUserId (c : option string) (s : AppState) :=
  mkAppState (users s) (receipts s) (transactions s) (budgets s)
             (analyticsLog s) c.

(** ** Store computations: state and exceptions *)

Inductive outcome (A : Type) :=
| Returned (a : A)
| Thrown (message : string).
Arguments Returned {A} a.
Arguments Thrown {A} message.

(** A store action runs from a state to an outcome and a final state; a
    [throw] keeps whatever state the action had reached. *)
Definition Store (A : Type) : Type := AppState -> outcome A * AppState.

Definition ret {A} (a : A) : Store A := fun s => (Returned a, s).

Definition throw {A} (message : string) : Store A :=
  fun s => (Thrown message, s).

Definition bind {A B} (m : Store A) (k : A -> Store B) : Store B :=
  fun s =>
    match m s with
    | (Returned a, s') => k a s'
    | (Thrown e, s') => (Thrown e, s')
    end.

(** [get()] *)
Definition get : Store AppState := fun s => (Returned s, s).

(** [set((state) => ...)] *)
Definition set (f : AppState -> AppState) : Store unit :=
  fun s => (Returned tt, f s).

Declare Scope store_scope.
Delimit Scope store_scope with store.
Notation "x <- m ;; k" := (bind m (fun x => k))
  (at level 61, m at next level, right associativity) : store_scope.
Notation "m ;;; k" := (bind m (fun _ => k))
  (at level 61, right associativity) : store_scope.
Open Scope store_scope.

Definition result {A} (r : outcome A * AppState) : outcome A := fst r.
Definition final {A} (r : outcome A * AppState) : AppState := snd r.

(** ** The store *)

Definition DEFAULT_CATEGORIES : list string :=
  [ "Salary"; "Rent"; "Food"; "Transportation"; "Entertainment";
    "Utilities"; "Healthcare"; "Travel"; "Savings" ].

(** [DEFAULT_CATEGORIES.slice(0, 6)] *)
Definition starterCategories : list string := firstn 6 DEFAULT_CATEGORIES.

(** [s.trim().toLowerCase()] *)
Definition normalizeEmail (s : string) : string :=
  Js.toLowerCase (Js.trim s).

Definition selectUserByEmail (us : list User) (mail : string) : option User :=
  find (fun user => normalizeEmail (email user) =? normalizeEmail mail) us.

Definition signUp (mail nm pwHash : string) (newId now : string)
  : Store string :=
  st <- get ;;
  match selectUserByEmail (users st) mail with
  | Some _ => throw "An account already exists for this email address."
  | None =>
      let newUser :=
        {| user_id := newId;
           email := normalizeEmail mail;
           name := if Js.falsy (Js.trim nm) then "New Member" else Js.trim nm;
           passwordHash := pwHash;
           user_createdAt := now;
           subscription :=
             {| tier := free; renewalDate := None; status := active |};
           settings :=
             {| currency := "USD"; notifications := true;
                darkMode := false; haptics := true |};
           categories := starterCategories |} in
      set (fun state =>
             set_currentUserId (Some newId)
               (set_users (fun us => (us ++ [newUser])%list) state)) ;;;
      ret newId
  end.

Definition signIn (mail pwHash : string) : Store User :=
  st <- get ;;
  match selectUserByEmail (users st) mail with
  | None => throw "Invalid email or password."
  | Some user =>
      if negb (passwordHash user =? pwHash)
      then throw "Invalid email or password."
      else set (set_currentUserId (Some (user_id user))) ;;; ret user
  end.

Definition signOut : Store unit :=
  set (set_currentUserId None).

Definition with_passwordHash (h : string) (u : User) : User :=
  mkUser (user_id u) (email u) (name u) h (user_createdAt u)
         (subscription u) (settings u) (categories u).

Definition resetPassword (mail newPasswordHash : string) : Store unit :=
  st <- get ;;
  match selectUserByEmail (users st) mail with
  | None => throw "No account found for this email."
  | Some user =>
      set (set_users
             (map (fun u =>
                     if user_id u =? user_id user
                     then with_passwordHash newPasswordHash u else u)))
  end.

Definition addReceipt (fname durl : string) (newId now : string)
  : Store Receipt :=
  let receipt :=
    {| receipt_id := newId; fileName := fname; dataUrl := durl;
       uploadedAt := now |} in
  set (set_receipts (fun rs => (rs ++ [receipt])%list)) ;;;
  ret receipt.

Definition removeReceipt (id : string) : Store unit :=
  set (set_receipts (filter (fun receipt => negb (receipt_id receipt =? id)))).

Record TransactionArgs := mkTransactionArgs {
  targ_userId : string;
  targ_type : TransactionType;
  targ_category : string;
  targ_amount : Js.number;
  targ_date : string;
  targ_notes : option string;
  targ_receiptId : option string;
  targ_source : option TransactionSource
}.

Definition addTransaction (a : TransactionArgs) (newId now : string)
  : Store Transaction :=
  let transaction :=
    {| tx_id := newId;
       tx_userId := targ_userId a;
       tx_type := targ_type a;
       tx_category := targ_category a;
       amount := targ_amount a;
       date := targ_date a;
       notes := targ_notes a;
       receiptId := targ_receiptId a;
       source := match targ_source a with Some s => s | None => manual end;
       tx_createdAt := now |} in
  set (set_transactions (cons transaction)) ;;;
  ret transaction.

(** The object passed as [updates].  Its declared type is
    [Partial<Omit<Transaction, 'id' | 'userId'>>], which also accepts a
    wider object, a whole [Transaction] for one: the spread copies every
    key the object has, [id] and [userId] included.  A key is absent
    ([None]) or holds a value of the type the stored field has; for the
    optional fields that value may be [undefined]. *)
Record TransactionUpdates := mkTransactionUpdates {
  upd_id : option string;
  upd_userId : option string;
  upd_type : option TransactionType;
  upd_category : option string;
  upd_amount : option Js.number;
  upd_date : option string;
  upd_notes : option (option string);
  upd_receiptId : option (option string);
  upd_source : option TransactionSource;
  upd_createdAt : option string
}.

Definition orElse {A} (x : option A) (d : A) : A :=
  match x with Some v => v | None => d end.

(** [{ ...tx, ...updates }]: every key of [updates] replaces the field of
    [tx]. *)
Definition mergeTransaction (tx : Transaction) (u : TransactionUpdates)
  : Transaction :=
  {| tx_id := orElse (upd_id u) (tx_id tx);
     tx_userId := orElse (upd_userId u) (tx_userId tx);
     tx_type := orElse (upd_type u) (tx_type tx);
     tx_category := orElse (upd_category u) (tx_category tx);
     amount := orElse (upd_amount u) (amount tx);
     date := orElse (upd_date u) (date tx);
     notes := orElse (upd_notes u) (notes tx);
     receiptId := orElse (upd_receiptId u) (receiptId tx);
     source := orElse (upd_source u) (source tx);
     tx_createdAt := orElse (upd_createdAt u) (tx_createdAt tx) |}.

Definition updateTransaction (id : string) (updates : TransactionUpdates)
  : Store unit :=
  set (set_transactions
         (map (fun tx => if tx_id tx =? id
                         then mergeTransaction tx updates else tx))).

(** [transaction?.receiptId], as the condition of an [if]: the receipt id
    when a transaction was found and its receipt id is a non-empty
    string. *)
Definition truthyReceiptId (t : option Transaction) : option string :=
  match t with
  | Some tx =>
      match receiptId tx with
      | Some r => if Js.falsy r then None else Some r
      | None => None
      end
  | None => None
  end.

Definition removeTransaction (id : string) : Store unit :=
  st <- get ;;
  let transaction := find (fun tx => tx_id tx =? id) (transactions st) in
  match truthyReceiptId transaction with
  | Some rid =>
      set (set_receipts (filter (fun r => negb (receipt_id r =? rid))))
  | None => ret tt
  end ;;;
  set (set_transactions (filter (fun tx => negb (tx_id tx =? id)))).

Record BudgetArgs := mkBudgetArgs {
  barg_id : option string;
  barg_userId : string;
  barg_category : string;
  barg_limit : Js.number;
  barg_rollover : option bool;
  barg_alertThreshold : option Js.number
}.

(** [if (id)] on the optional id: an absent id and the empty string both
    take the creating branch. *)
Definition truthyId (id : option string) : option string :=
  match id with
  | Some i => if Js.falsy i then None else Some i
  | None => None
  end.

Definition upsertBudget (a : BudgetArgs) (newId now : string)
  : Store Budget :=
  if Js.le (barg_limit a) Js.zero
  then throw "Budget limit must be greater than zero."
  else
    match truthyId (barg_id a) with
    | Some id =>
        st <- get ;;
        match find (fun budget => budget_id budget =? id) (budgets st) with
        | None => throw "Budget not found."
        | Some exists_ =>
            let updated :=
              {| budget_id := budget_id exists_;
                 budget_userId := budget_userId exists_;
                 budget_category := barg_category a;
                 limit := barg_limit a;
                 budget_createdAt := budget_createdAt exists_;
                 rollover := Js.orKeep (barg_rollover a) (rollover exists_);
                 alertThreshold :=
                   Js.orKeep (barg_alertThreshold a)
                             (alertThreshold exists_) |} in
            set (set_budgets
                   (map (fun budget =>
                           if budget_id budget =? id
                           then updated else budget))) ;;;
            ret updated
        end
    | None =>
        let budget :=
          {| budget_id := newId;
             budget_userId := barg_userId a;
             budget_category := barg_category a;
             limit := barg_limit a;
             budget_createdAt := now;
             rollover := barg_rollover a;
             alertThreshold := barg_alertThreshold a |} in
        set (set_budgets (cons budget)) ;;;
        ret budget
    end.

Definition removeBudget (id : string) : Store unit :=
  set (set_budgets (filter (fun budget => negb (budget_id budget =? id)))).

Definition with_plan (sub : Subscription) (cats : list string) (u : User)
  : User :=
  mkUser (user_id u) (email u) (name u) (passwordHash u) (user_createdAt u)
         sub (settings u) cats.

(** [cats.concat(DEFAULT_CATEGORIES.filter((category) =>
    !cats.includes(category)))], the categories [upgradeToPremium] gives a
    user whose categories are [cats]. *)
Definition withMissingDefaults (cats : list string) : list string :=
  (cats ++ filter (fun category => negb (Js.includes cats category))
                  DEFAULT_CATEGORIES)%list.

(** [renewal] is [addMonths(new Date(), 1).toISOString()]. *)
Definition upgradeToPremium (userId : string) (renewal : string)
  : Store unit :=
  set (set_users
         (map (fun user =>
                 if user_id user =? userId
                 then with_plan
                        {| tier := premium; renewalDate := Some renewal;
                           status := active |}
                        (withMissingDefaults (categories user))
                        user
                 else user))).

(** The [filter] predicate of [downgradeToFree], on the owner and the
    category of a budget or of a transaction. *)
Definition survivesDowngrade (userId owner category : string) : bool :=
  negb (owner =? userId) || Js.includes starterCategories category.

Definition downgradeToFree (userId : string) : Store unit :=
  set (fun state =>
         set_transactions
           (filter (fun tx =>
                      survivesDowngrade userId (tx_userId tx)
                                        (tx_category tx)))
           (set_budgets
              (filter (fun budget =>
                         survivesDowngrade userId (budget_userId budget)
                                           (budget_category budget)))
              (set_users
                 (map (fun user =>
                         if user_id user =? userId
                         then with_plan
                                {| tier := free; renewalDate := None;
                                   status := active |}
                                starterCategories user
                         else user))
                 state))).

Definition addCustomCategory (userId category : string) : Store unit :=
  let trimmed := Js.trim category in
  if Js.falsy trimmed
  then throw "Category name cannot be empty."
  else
    set (set_users
           (map (fun user =>
                   if (user_id user =? userId)
                      && negb (Js.includes (categories user) trimmed)
                   then with_plan (subscription user)
                                  (categories user ++ [trimmed])%list user
                   else user))).

(** [generate] stands for [generateImportedTransactions] at this call: the
    batch it draws for a user. *)
Definition importTransactions (userId : string)
  (generate : User -> list Transaction) : Store (list Transaction) :=
  st <- get ;;
  match find (fun u => user_id u =? userId) (users st) with
  | None => throw "User not found."
  | Some user =>
      let batch := generate user in
      set (set_transactions (fun txs => (batch ++ txs)%list)) ;;;
      ret batch
  end.

(** [Partial<UserSettings>] *)
Record SettingsUpdates := mkSettingsUpdates {
  upd_currency : option string;
  upd_notifications : option bool;
  upd_darkMode : option bool;
  upd_haptics : option bool
}.

(** [{ ...user.settings, ...settings }] *)
Definition mergeSettings (s : UserSettings) (u : SettingsUpdates)
  : UserSettings :=
  {| currency := orElse (upd_currency u) (currency s);
     notifications := orElse (upd_notifications u) (notifications s);
     darkMode := orElse (upd_darkMode u) (darkMode s);
     haptics := orElse (upd_haptics u) (haptics s) |}.

Definition with_settings (s : UserSettings) (u : User) : User :=
  mkUser (user_id u) (email u) (name u) (passwordHash u) (user_createdAt u)
         (subscription u) s (categories u).

Definition updateSettings (userId : string) (upd : SettingsUpdates)
  : Store unit :=
  set (set_users
         (map (fun user =>
                 if user_id user =? userId
                 then with_settings (mergeSettings (settings user) upd) user
                 else user))).

Definition sendAnalyticsEmail (userId : string) (p : Period)
  (newId now : string) : Store AnalyticsLog :=
  let log :=
    {| log_id := newId; log_userId := userId; period := p; sentAt := now |} in
  set (set_analyticsLog (cons log)) ;;;
  ret log.

(** ** Runs of the store *)

(** One call of a store operation, with what it reads from the
    environment. *)
Inductive Op :=
| SignUp (mail nm pwHash newId now : string)
| SignIn (mail pwHash : string)
| SignOut
| ResetPassword (mail newPasswordHash : string)
| AddTransaction (a : TransactionArgs) (newId now : string)
| UpdateTransaction (id : string) (updates : TransactionUpdates)
| RemoveTransaction (id : string)
| AddReceipt (fname durl newId now : string)
| RemoveReceipt (id : string)
| UpsertBudget (a : BudgetArgs) (newId now : string)
| RemoveBudget (id : string)
| UpgradeToPremium (userId renewal : string)
| DowngradeToFree (userId : string)
| AddCustomCategory (userId category : string)
| ImportTransactions (userId : string) (generate : User -> list Transaction)
| UpdateSettings (userId : string) (upd : SettingsUpdates)
| SendAnalyticsEmail (userId : string) (p : Period) (newId now : string).

(** The state a call leaves, whether it returns or throws. *)
Definition exec (op : Op) (st : AppState) : AppState :=
  match op with
  | SignUp mail nm pwHash newId now =>
      final (signUp mail nm pwHash newId now st)
  | SignIn mail pwHash => final (signIn mail pwHash st)
  | SignOut => final (signOut st)
  | ResetPassword mail h => final (resetPassword mail h st)
  | AddTransaction a newId now => final (addTransaction a newId now st)
  | UpdateTransaction id updates => final (updateTransaction id updates st)
  | RemoveTransaction id => final (removeTransaction id st)
  | AddReceipt fname durl newId now =>
      final (addReceipt fname durl newId now st)
  | RemoveReceipt id => final (removeReceipt id st)
  | UpsertBudget a newId now => final (upsertBudget a newId now st)
  | RemoveBudget id => final (removeBudget id st)
  | UpgradeToPremium userId renewal =>
      final (upgradeToPremium userId renewal st)
  | DowngradeToFree userId => final (downgradeToFree userId st)
  | AddCustomCategory userId category =>
      final (addCustomCategory userId category st)
  | ImportTransactions userId generate =>
      final (importTransactions userId generate st)
  | UpdateSettings userId upd => final (updateSettings userId upd st)
  | SendAnalyticsEmail userId p newId now =>
      final (sendAnalyticsEmail userId p newId now st)
  end.

(** The states the store can be in: the initial one and those a call
    leaves from a reachable one. *)
Inductive reachable : AppState -> Prop :=
| reachable_initial : reachable initialState
| reachable_exec (op : Op) (st : AppState) :
    reachable st -> reachable (exec op st).

Fixpoint execAll (ops : list Op) (st : AppState) : AppState :=
  match ops with
  | [] => st
  | op :: rest => execAll rest (exec op st)
  end.

(** ** Vocabulary of the specification *)

(** A stored user matches an email address when their normalized forms
    agree: the comparison of [selectUserByEmail]. *)
Definition matchesEmail (u : User) (mail : string) : Prop :=
  normalizeEmail (email u) = normalizeEmail mail.

(** The state fields other than [users] agree. *)
Definition sameButUsers (s s' : AppState) : Prop :=
  receipts s' = receipts s /\ transactions s' = transactions s /\
  budgets s' = budgets s /\ analyticsLog s' = analyticsLog s /\
  currentUserId s' = currentUserId s.

(** The state fields other than [budgets] agree. *)
Definition sameButBudgets (s s' : AppState) : Prop :=
  users s' = users s /\ receipts s' = receipts s /\
  transactions s' = transactions s /\ analyticsLog s' = analyticsLog s /\
  currentUserId s' = currentUserId s.

(** ** Sample states *)

Definition annState : AppState :=
  final (signUp "a@x.com" "Ann" "hash-1" "U1" "2024-01-01T00:00:00.000Z"
           initialState).

Definition ann : User :=
  {| user_id := "U1"; email := "a@x.com"; name := "Ann";
     passwordHash := "hash-1";
     user_createdAt := "2024-01-01T00:00:00.000Z";
     subscription := {| tier := free; renewalDate := None; status := active |};
     settings := {| currency := "USD"; notifications := true;
                    darkMode := false; haptics := true |};
     categories := starterCategories |}.

Definition foodBudgetArgs (id : option string) (owner : string)
  (lim : Z) (roll : option bool) : BudgetArgs :=
  {| barg_id := id; barg_userId := owner; barg_category := "Food";
     barg_limit := Js.ofZ lim; barg_rollover := roll;
     barg_alertThreshold := None |}.

(** ** Budgets: vocabulary *)

(** A limit that is zero (of either sign) or below zero. *)
Definition zeroOrNegative (x : Js.number) : Prop :=
  SFeqb x Js.zero = true \/ Js.lt x Js.zero = true.

(** A limit above zero. *)
Definition positive (x : Js.number) : Prop := Js.lt Js.zero x = true.

Definition hasBudgetId (id : string) (b : Budget) : bool := budget_id b =? id.

(** The same call with another [userId] argument. *)
Definition with_owner (owner : string) (a : BudgetArgs) : BudgetArgs :=
  mkBudgetArgs (barg_id a) owner (barg_category a) (barg_limit a)
               (barg_rollover a) (barg_alertThreshold a).

(** How [upsertBudget] relates a stored budget [x] to the budget [y] at
    the same position after an update of the budgets with id [id] to
    [b]. *)
Definition replacedBy (id : string) (b : Budget) (x y : Budget) : Prop :=
  (budget_id x = id /\ y = b) \/ (budget_id x <> id /\ y = x).

(** The not-found clause of upsertBudget, for any supplied id. *)
Definition upsert_unknown_id_rejected : Prop :=
  forall (st : AppState) (a : BudgetArgs) (newId now id : string),
    positive (barg_limit a) ->
    barg_id a = Some id ->
    (forall b, In b (budgets st) -> budget_id b <> id) ->
    upsertBudget a newId now st = (Thrown "Budget not found.", st).

Definition foodBudget : Budget :=
  {| budget_id := "B1"; budget_userId := "U1"; budget_category := "Food";
     limit := Js.ofZ 500; budget_createdAt := "2024-01-02T00:00:00.000Z";
     rollover := Some true; alertThreshold := Some (Js.ofZ 80) |}.

Definition budgetState (b : Budget) : AppState :=
  set_budgets (cons b) annState.

(** ** Transactions and categories: vocabulary *)

Definition hasTxId (id : string) (tx : Transaction) : bool := tx_id tx =? id.

(** The user fields other than [categories] agree. *)
Definition sameButCategories (u u' : User) : Prop :=
  user_id u' = user_id u /\ email u' = email u /\ name u' = name u /\
  passwordHash u' = passwordHash u /\ user_createdAt u' = user_createdAt u /\
  subscription u' = subscription u /\ settings u' = settings u.

(** The user fields other than [subscription] and [categories] agree. *)
Definition sameButPlan (u u' : User) : Prop :=
  user_id u' = user_id u /\ email u' = email u /\ name u' = name u /\
  passwordHash u' = passwordHash u /\ user_createdAt u' = user_createdAt u /\
  settings u' = settings u.

(** How [addCustomCategory userId] relates a user [u] to the user [u'] at
    the same position afterwards, [trimmed] being the trimmed name. *)
Definition categoryAdded (userId trimmed : string) (u u' : User) : Prop :=
  (user_id u = userId /\ ~ In trimmed (categories u)
   /\ categories u' = (categories u ++ [trimmed])%list
   /\ sameButCategories u u')
  \/ ((user_id u <> userId \/ In trimmed (categories u)) /\ u' = u).

Definition orphanReceipt : Receipt :=
  {| receipt_id := ""; fileName := "scan.png"; dataUrl := "data:,";
     uploadedAt := "2024-01-03T00:00:00.000Z" |}.

Definition lunchReceipt : Receipt :=
  {| receipt_id := "R1"; fileName := "lunch.png"; dataUrl := "data:,";
     uploadedAt := "2024-01-04T00:00:00.000Z" |}.

Definition lunch (id : string) (rid : option string) : Transaction :=
  {| tx_id := id; tx_userId := "U1"; tx_type := expense;
     tx_category := "Food"; amount := Js.ofZ 12;
     date := "2024-01-05"; notes := None; receiptId := rid;
     source := manual; tx_createdAt := "2024-01-05T12:00:00.000Z" |}.

Definition ledgerState (txs : list Transaction) : AppState :=
  set_transactions (fun _ => txs)
    (set_receipts (fun _ => [orphanReceipt; lunchReceipt]) annState).

(** ** Subscription changes: vocabulary *)

Definition freePlan : Subscription :=
  {| tier := free; renewalDate := None; status := active |}.

Definition premiumPlan (renewal : string) : Subscription :=
  {| tier := premium; renewalDate := Some renewal; status := active |}.

(** How [upgradeToPremium userId renewal] relates a user to the user at
    the same position afterwards. *)
Definition upgraded (userId renewal : string) (u u' : User) : Prop :=
  (user_id u = userId /\ subscription u' = premiumPlan renewal
   /\ categories u' = withMissingDefaults (categories u)
   /\ sameButPlan u u')
  \/ (user_id u <> userId /\ u' = u).

(** How [downgradeToFree userId] relates a user to the user at the same
    position afterwards. *)
Definition downgraded (userId : string) (u u' : User) : Prop :=
  (user_id u = userId /\ subscription u' = freePlan
   /\ categories u' = starterCategories
   /\ sameButPlan u u')
  \/ (user_id u <> userId /\ u' = u).

(** A budget or transaction of [userId] whose category is not one of the
    first six defaults. *)
Definition lostOnDowngrade (userId owner category : string) : bool :=
  (owner =? userId) && negb (Js.includes starterCategories category).

(** The invariant of the free tier: the first six defaults are among the
    categories of every free user. *)
Definition keepsStarter (u : User) : Prop :=
  tier (subscription u) = free -> incl starterCategories (categories u).

Definition freeKeepStarter (st : AppState) : Prop :=
  Forall keepsStarter (users st).

(** What one store call can do to one stored user. *)
Inductive userChange : User -> User -> Prop :=
| change_none u : userChange u u
| change_password h u : userChange u (with_passwordHash h u)
| change_settings s u : userChange u (with_settings s u)
| change_upgrade renewal u :
    userChange u (with_plan (premiumPlan renewal)
                            (withMissingDefaults (categories u)) u)
| change_downgrade u : userChange u (with_plan freePlan starterCategories u)
| change_category trimmed u :
    Js.includes (categories u) trimmed = false ->
    userChange u (with_plan (subscription u)
                            (categories u ++ [trimmed])%list u).

(** What one store call does to the user list: it maps a change over the
    stored users, or it appends a user on the free plan with the starter
    categories. *)
Definition usersChange (us us' : list User) : Prop :=
  (exists f, us' = map f us /\ forall u, userChange u (f u))
  \/ (exists u, us' = (us ++ [u])%list
                /\ subscription u = freePlan
                /\ categories u = starterCategories).

Definition travelBudget (id owner : string) : Budget :=
  {| budget_id := id; budget_userId := owner; budget_category := "Travel";
     limit := Js.ofZ 300; budget_createdAt := "2024-01-02T00:00:00.000Z";
     rollover := None; alertThreshold := None |}.

Definition premiumState : AppState :=
  set_budgets
    (fun _ => [travelBudget "B1" "U1"; foodBudget; travelBudget "B3" "U2"])
    (final (upgradeToPremium "U1" "2024-02-01T00:00:00.000Z" annState)).

Definition sampleRun : AppState :=
  execAll [SignUp "a@x.com" "Ann" "hash-1" "U1" "2024-01-01T00:00:00.000Z";
           UpgradeToPremium "U1" "2024-02-01T00:00:00.000Z";
           AddCustomCategory "U1" "Pets";
           DowngradeToFree "U1";
           AddCustomCategory "U1" " Pets "] initialState.

Definition annWithPets : User :=
  with_plan freePlan (starterCategories ++ ["Pets"])%list ann.

(** ** Callers of the store *)

(** [useAuth] (hooks/use-auth):
    [users.find((candidate) => candidate.id === currentUserId)]; with no
    current user id the comparison fails for every candidate. *)
Definition useAuth (st : AppState) : option User :=
  match currentUserId st with
  | Some id => find (fun candidate => user_id candidate =? id) (users st)
  | None => None
  end.

(** [getReceiptImage] of the transactions page:
    [receiptId ? receipts.find((receipt) => receipt.id === receiptId)?.dataUrl
               : undefined]. *)
Definition getReceiptImage (rs : list Receipt) (rid : option string)
  : option string :=
  match rid with
  | Some r =>
      if Js.falsy r then None
      else match find (fun receipt => receipt_id receipt =? r) rs with
           | Some receipt => Some (dataUrl receipt)
           | None => None
           end
  | None => None
  end.

Definition isPremium (u : User) : bool :=
  match tier (subscription u) with premium => true | free => false end.

(** What [handleAddCategory] of the budgeting page does to the store;
    [user] is what [useAuth] gave the page, [customCategory] the text of
    the input. *)
Definition handleAddCategory (user : option User) (customCategory : string)
  : Store unit :=
  match user with
  | None => ret tt
  | Some u =>
      if negb (isPremium u) then ret tt
      else if Js.falsy (Js.trim customCategory) then ret tt
      else addCustomCategory (user_id u) (Js.trim customCategory)
  end.

(** What [handleUpgrade] of the profile page does to the store. *)
Definition handleUpgrade (user : User) (renewal : string) : Store unit :=
  if isPremium user then ret tt
  else upgradeToPremium (user_id user) renewal.

(** What [handleDowngrade] of the profile page does to the store. *)
Definition handleDowngrade (user : User) : Store unit :=
  downgradeToFree (user_id user).

(** ** Outcomes of calls *)

Definition thrown {A} (r : outcome A * AppState) : option string :=
  match result r with
  | Thrown message => Some message
  | Returned _ => None
  end.

(** The message a call throws, if it throws. *)
Definition thrownBy (op : Op) (st : AppState) : option string :=
  match op with
  | SignUp mail nm pwHash newId now =>
      thrown (signUp mail nm pwHash newId now st)
  | SignIn mail pwHash => thrown (signIn mail pwHash st)
  | SignOut => thrown (signOut st)
  | ResetPassword mail h => thrown (resetPassword mail h st)
  | AddTransaction a newId now => thrown (addTransaction a newId now st)
  | UpdateTransaction id updates => thrown (updateTransaction id updates st)
  | RemoveTransaction id => thrown (removeTransaction id st)
  | AddReceipt fname durl newId now =>
      thrown (addReceipt fname durl newId now st)
  | RemoveReceipt id => thrown (removeReceipt id st)
  | UpsertBudget a newId now => thrown (upsertBudget a newId now st)
  | RemoveBudget id => thrown (removeBudget id st)
  | UpgradeToPremium userId renewal =>
      thrown (upgradeToPremium userId renewal st)
  | DowngradeToFree userId => thrown (downgradeToFree userId st)
  | AddCustomCategory userId category =>
      thrown (addCustomCategory userId category st)
  | ImportTransactions userId generate =>
      thrown (importTransactions userId generate st)
  | UpdateSettings userId upd => thrown (updateSettings userId upd st)
  | SendAnalyticsEmail userId p newId now =>
      thrown (sendAnalyticsEmail userId p newId now st)
  end.

Definition errorMessages : list string :=
  [ "An account already exists for this email address.";
    "Invalid email or password.";
    "No account found for this email.";
    "Budget limit must be greater than zero.";
    "Budget not found.";
    "Category name cannot be empty.";
    "User not found." ].

(** ** Invariants of reachable states: vocabulary *)

(** A limit that passed the validation of [upsertBudget]. *)
Definition validLimit (b : Budget) : Prop :=
  Js.le (limit b) Js.zero = false.

(** Stored emails are in normalized form and no two users share one. *)
Definition emailsUnique (st : AppState) : Prop :=
  NoDup (map email (users st))
  /\ Forall (fun u => email u = normalizeEmail (email u)) (users st).

(** The current user id, when there is one, is the id of a stored user. *)
Definition currentUserStored (st : AppState) : Prop :=
  forall id, currentUserId st = Some id ->
             exists u, In u (users st) /\ user_id u = id.

(** What one call does to the user list, with what [signUp] checked
    before it appended. *)
Definition usersStep (us us' : list User) : Prop :=
  (exists f, us' = map f us /\ forall u, userChange u (f u))
  \/ (exists mail u,
        selectUserByEmail us mail = None
        /\ us' = (us ++ [u])%list
        /\ email u = normalizeEmail mail).

(** What one call does to the current user id. *)
Definition currentStep (st st' : AppState) : Prop :=
  currentUserId st' = currentUserId st
  \/ currentUserId st' = None
  \/ exists u, In u (users st') /\ currentUserId st' = Some (user_id u).

(** What one call does to the budgets. *)
Definition budgetsStep (bs bs' : list Budget) : Prop :=
  (exists keep, bs' = filter keep bs)
  \/ (exists b, validLimit b /\ bs' = b :: bs)
  \/ (exists (b : Budget) (change : Budget -> bool),
        validLimit b
        /\ bs' = map (fun x => if change x then b else x) bs).

(** What one call does to the analytics log. *)
Definition logStep (l l' : list AnalyticsLog) : Prop :=
  l' = l \/ exists entry, l' = entry :: l.

(** What identifies a stored user: no call changes it. *)
Definition userIdentity (u : User) : string * string * string :=
  (user_id u, email u, user_createdAt u).

(** How [updateTransaction id updates] relates a transaction to the
    transaction at the same position afterwards: other ids are left
    alone, and the id and the owner change only through an [id] or a
    [userId] key of the object. *)
Definition txUpdated (id : string) (updates : TransactionUpdates)
  (t t' : Transaction) : Prop :=
  (tx_id t <> id -> t' = t)
  /\ (upd_id updates = None -> tx_id t' = tx_id t)
  /\ (upd_userId updates = None -> tx_userId t' = tx_userId t)
  /\ (tx_id t = id ->
      (forall i, upd_id updates = Some i -> tx_id t' = i)
      /\ (forall o, upd_userId updates = Some o -> tx_userId t' = o)).

Definition lunchArgs (rid : option string) : TransactionArgs :=
  {| targ_userId := "U1"; targ_type := expense; targ_category := "Food";
     targ_amount := Js.ofZ 12; targ_date := "2024-01-05";
     targ_notes := None; targ_receiptId := rid; targ_source := None |}.

(** ** Totals (utils/format) *)

(** [x + y] and [x - y] on numbers: binary64 arithmetic. *)
Definition numberAdd (x y : Js.number) : Js.number := SFadd 53 1024 x y.
Definition numberSub (x y : Js.number) : Js.number := SFsub 53 1024 x y.

Definition sameType (a b : TransactionType) : bool :=
  match a, b with
  | income, income | expense, expense => true
  | _, _ => false
  end.

(** [transactions.filter((transaction) => transaction.type === type)
      .reduce((total, transaction) => total + transaction.amount, 0)] *)
Definition calculateTotal (txs : list Transaction) (ty : TransactionType)
  : Js.number :=
  fold_left (fun total transaction => numberAdd total (amount transaction))
            (filter (fun transaction => sameType (tx_type transaction) ty) txs)
            Js.zero.

Definition calculateNet (txs : list Transaction) : Js.number :=
  numberSub (calculateTotal txs income) (calculateTotal txs expense).

Definition isNaN (x : Js.number) : bool :=
  match x with S754_nan => true | _ => false end.

Definition brokenLunch : Transaction :=
  {| tx_id := "T8"; tx_userId := "U1"; tx_type := expense;
     tx_category := "Food"; amount := S754_nan;
     date := "2024-01-06"; notes := None; receiptId := None;
     source := manual; tx_createdAt := "2024-01-06T12:00:00.000Z" |}.

(** Ann's store after she signed out. *)
Definition signedOutState : AppState := final (signOut annState).

(** ** Ids as the store draws them *)

(** What [nanoid()] gives: an id that is not empty and not in use. *)
Definition freshId (id : string) (used : list string) : Prop :=
  id <> "" /\ ~ In id used.

(** A call as the store's callers make it: the ids it draws are fresh,
    the batch of an import carries fresh, distinct ids, and the object
    of an update carries only the keys of its declared type. *)
Definition regularCall (op : Op) (st : AppState) : Prop :=
  match op with
  | SignUp _ _ _ newId _ => freshId newId (map user_id (users st))
  | AddTransaction _ newId _ => freshId newId (map tx_id (transactions st))
  | AddReceipt _ _ newId _ => freshId newId (map receipt_id (receipts st))
  | UpsertBudget _ newId _ => freshId newId (map budget_id (budgets st))
  | SendAnalyticsEmail _ _ newId _ =>
      freshId newId (map log_id (analyticsLog st))
  | ImportTransactions _ generate =>
      forall u, NoDup (map tx_id (generate u))
                /\ forall t, In t (generate u) ->
                             freshId (tx_id t) (map tx_id (transactions st))
  | UpdateTransaction _ updates =>
      upd_id updates = None /\ upd_userId updates = None
  | _ => True
  end.

(** The states the store produces with such calls. *)
Inductive produced : AppState -> Prop :=
| produced_initial : produced initialState
| produced_exec (op : Op) (st : AppState) :
    produced st -> regularCall op st -> produced (exec op st).

Fixpoint regularRun (ops : list Op) (st : AppState) : Prop :=
  match ops with
  | [] => True
  | op :: rest => regularCall op st /\ regularRun rest (exec op st)
  end.

(** No stored receipt has the empty string as id. *)
Definition receiptIdsSet (st : AppState) : Prop :=
  Forall (fun i => i <> "") (map receipt_id (receipts st)).

(** No two stored transactions share an id. *)
Definition transactionIdsUnique (st : AppState) : Prop :=
  NoDup (map tx_id (transactions st)).

(** No stored budget has the empty string as id and no two share one. *)
Definition budgetIdsUnique (st : AppState) : Prop :=
  Forall (fun i => i <> "") (map budget_id (budgets st))
  /\ NoDup (map budget_id (budgets st)).

Definition ledgerRun : AppState :=
  execAll [SignUp "a@x.com" "Ann" "hash-1" "U1" "2024-01-01T00:00:00.000Z";
           AddReceipt "lunch.png" "data:," "R1" "2024-01-04T00:00:00.000Z";
           AddTransaction (lunchArgs (Some "R1")) "T1"
                          "2024-01-05T12:00:00.000Z";
           AddTransaction (lunchArgs None) "T2" "2024-01-05T12:00:00.000Z";
           UpsertBudget (foodBudgetArgs None "U1" 500 (Some true)) "B1"
                        "2024-01-02T00:00:00.000Z"]
          initialState.

(** The budget of [ledgerRun]. *)
Definition runBudget : Budget :=
  {| budget_id := "B1"; budget_userId := "U1"; budget_category := "Food";
     limit := Js.ofZ 500; budget_createdAt := "2024-01-02T00:00:00.000Z";
     rollover := Some true; alertThreshold := None |}.

(** ** Facts about the string primitives *)

Module JsFacts.
Import Js.

Lemma isWhiteSpace_lowerCodeUnit (c : ascii) :
  isWhiteSpace (lowerCodeUnit c) = isWhiteSpace c.
Proof. destruct c as [[] [] [] [] [] [] [] []]; reflexivity. Qed.

Lemma lowerCodeUnit_idem (c : ascii) :
  lowerCodeUnit (lowerCodeUnit c) = lowerCodeUnit c.
Proof. destruct c as [[] [] [] [] [] [] [] []]; reflexivity. Qed.

Lemma toLowerCase_idem (s : string) :
  toLowerCase (toLowerCase s) = toLowerCase s.
Proof.
  induction s as [|c r IH]; simpl; [reflexivity|].
  now rewrite lowerCodeUnit_idem, IH.
Qed.

Lemma trimStart_toLowerCase (s : string) :
  trimStart (toLowerCase s) = toLowerCase (trimStart s).
Proof.
  induction s as [|c r IH]; simpl; [reflexivity|].
  rewrite isWhiteSpace_lowerCodeUnit.
  destruct (isWhiteSpace c); [exact IH | reflexivity].
Qed.

Lemma trimEnd_toLowerCase (s : string) :
  trimEnd (toLowerCase s) = toLowerCase (trimEnd s).
Proof.
  induction s as [|c r IH]; simpl; [reflexivity|].
  rewrite IH, isWhiteSpace_lowerCodeUnit.
  destruct (trimEnd r); simpl; [|reflexivity].
  destruct (isWhiteSpace c); reflexivity.
Qed.

Lemma trim_toLowerCase (s : string) :
  trim (toLowerCase s) = toLowerCase (trim s).
Proof.
  unfold trim. now rewrite trimStart_toLowerCase, trimEnd_toLowerCase.
Qed.

(** What [trimStart] leaves is empty or starts with a code unit that is
    not white space. *)
Lemma trimStart_head (s : string) :
  trimStart s = EmptyString \/
  exists c r, trimStart s = String c r /\ isWhiteSpace c = false.
Proof.
  induction s as [|c r IH]; simpl; [now left|].
  destruct (isWhiteSpace c) eqn:W; [exact IH|].
  right. now exists c, r.
Qed.

Lemma trimEnd_idem (s : string) : trimEnd (trimEnd s) = trimEnd s.
Proof.
  induction s as [|c r IH]; simpl; [reflexivity|].
  destruct (trimEnd r) as [|a r'] eqn:E.
  - destruct (isWhiteSpace c) eqn:W; simpl; [reflexivity|].
    now rewrite W.
  - change (trimEnd (String c (String a r')))
      with (match trimEnd (String a r') with
            | EmptyString =>
                if isWhiteSpace c then EmptyString
                else String c EmptyString
            | String x y => String c (String x y)
            end).
    now rewrite IH.
Qed.

Lemma trimEnd_keeps_head (c : ascii) (r : string) :
  isWhiteSpace c = false -> exists r', trimEnd (String c r) = String c r'.
Proof.
  intros W. simpl. destruct (trimEnd r) as [|a r'].
  - rewrite W. now exists EmptyString.
  - now exists (String a r').
Qed.

Lemma trim_idem (s : string) : trim (trim s) = trim s.
Proof.
  unfold trim.
  assert (H : trimStart (trimEnd (trimStart s)) = trimEnd (trimStart s)).
  { destruct (trimStart_head s) as [E | (c & r & E & W)]; rewrite E.
    - reflexivity.
    - destruct (trimEnd_keeps_head c r W) as [r' E'].
      rewrite E'. simpl. now rewrite W. }
  rewrite H. apply trimEnd_idem.
Qed.

Lemma falsy_empty (s : string) : falsy s = true <-> s = EmptyString.
Proof. destruct s; simpl; split; congruence. Qed.

Lemma falsy_nonempty (s : string) : falsy s = false <-> s <> EmptyString.
Proof. destruct s; simpl; split; congruence. Qed.

Lemma includes_In (xs : list string) (x : string) :
  includes xs x = true <-> In x xs.
Proof.
  unfold includes. rewrite existsb_exists. split.
  - intros (y & Hy & E). apply String.eqb_eq in E. now subst.
  - intros H. exists x. split; [exact H | apply String.eqb_refl].
Qed.

Lemma includes_not_In (xs : list string) (x : string) :
  includes xs x = false <-> ~ In x xs.
Proof.
  rewrite <- includes_In. destruct (includes xs x); split; congruence.
Qed.

(** [x <= 0] holds of the zeros and of the numbers below zero, and of
    no others. *)
Lemma le_zero_iff (x : number) :
  le x zero = true <-> SFeqb x zero = true \/ lt x zero = true.
Proof.
  unfold le, lt, SFleb, SFltb, SFeqb.
  destruct (SFcompare x zero) as [[]|]; intuition congruence.
Qed.

Lemma lt_zero_not_le (x : number) : lt zero x = true -> le x zero = false.
Proof.
  unfold le, lt, SFleb, SFltb, zero.
  destruct x as [[]|[]| |[] m e]; simpl; congruence.
Qed.

End JsFacts.

Lemma normalizeEmail_idem (s : string) :
  normalizeEmail (normalizeEmail s) = normalizeEmail s.
Proof.
  unfold normalizeEmail.
  now rewrite JsFacts.trim_toLowerCase, JsFacts.toLowerCase_idem,
    JsFacts.trim_idem.
Qed.

(** ** Lists *)

Lemma Forall2_map_graph {A B} (f : A -> B) (l : list A) :
  Forall2 (fun x y => y = f x) l (map f l).
Proof. induction l; simpl; constructor; auto. Qed.

Lemma Forall2_weaken {A B} (R S : A -> B -> Prop) (l : list A) (l' : list B) :
  (forall x y, In x l -> R x y -> S x y) -> Forall2 R l l' -> Forall2 S l l'.
Proof.
  intros H F. induction F as [|x y l l' Rxy F IH]; constructor.
  - apply H; [now left | exact Rxy].
  - apply IH. intros a b Ha. apply H. now right.
Qed.

Lemma map_id_on {A} (f : A -> A) (l : list A) :
  (forall x, In x l -> f x = x) -> map f l = l.
Proof.
  intros H. induction l as [|a l IH]; simpl; [reflexivity|].
  rewrite H by now left. f_equal. apply IH. intros x Hx. apply H. now right.
Qed.

Lemma filter_all {A} (p : A -> bool) (l : list A) :
  (forall x, In x l -> p x = true) -> filter p l = l.
Proof.
  intros H. induction l as [|a l IH]; simpl; [reflexivity|].
  rewrite H by now left. f_equal. apply IH. intros x Hx. apply H. now right.
Qed.

Lemma find_none_iff {A} (p : A -> bool) (l : list A) :
  find p l = None <-> forall x, In x l -> p x = false.
Proof.
  split; [apply find_none|].
  intros H. induction l as [|a l IH]; simpl; [reflexivity|].
  rewrite H by now left. apply IH. intros x Hx. apply H. now right.
Qed.

Lemma find_exists {A} (p : A -> bool) (l : list A) (x : A) :
  In x l -> p x = true -> exists y, find p l = Some y.
Proof.
  intros Hin Hp. destruct (find p l) as [y|] eqn:E; [now exists y|].
  rewrite (find_none _ _ E x Hin) in Hp. discriminate.
Qed.

Lemma state_eta (s : AppState) :
  mkAppState (users s) (receipts s) (transactions s) (budgets s)
             (analyticsLog s) (currentUserId s) = s.
Proof. now destruct s. Qed.

(** ** Sign-up and sign-in *)

Lemma selectUserByEmail_none (us : list User) (mail : string) :
  selectUserByEmail us mail = None <->
  forall u, In u us -> ~ matchesEmail u mail.
Proof.
  unfold selectUserByEmail, matchesEmail. rewrite find_none_iff.
  split; intros H u Hu; specialize (H u Hu).
  - now apply String.eqb_neq.
  - now apply String.eqb_neq.
Qed.

Lemma selectUserByEmail_some (us : list User) (mail : string) (u : User) :
  selectUserByEmail us mail = Some u -> In u us /\ matchesEmail u mail.
Proof.
  unfold selectUserByEmail, matchesEmail. intros H.
  apply find_some in H. now rewrite String.eqb_eq in H.
Qed.

Lemma selectUserByEmail_finds (us : list User) (mail : string) (u : User) :
  In u us -> matchesEmail u mail ->
  exists v, selectUserByEmail us mail = Some v.
Proof.
  intros Hin Hm. apply (find_exists _ _ u Hin). now apply String.eqb_eq.
Qed.

(** C5. In a state that holds a user whose stored email is the normalized
    (trimmed, lower-cased) form of [mail], [signUp] with [mail] throws the
    conflict error whatever the name and the password hash are, and the
    state, users and current user id included, is unchanged. *)
Theorem signUp_conflict (st : AppState) (mail nm pwHash newId now : string) :
  (exists u, In u (users st) /\ email u = normalizeEmail mail) ->
  signUp mail nm pwHash newId now st
  = (Thrown "An account already exists for this email address.", st).
Proof.
  intros (u & Hin & Hmail).
  assert (Hm : matchesEmail u mail).
  { unfold matchesEmail. rewrite Hmail. apply normalizeEmail_idem. }
  destruct (selectUserByEmail_finds _ _ _ Hin Hm) as [v Hv].
  unfold signUp, bind, get. now rewrite Hv.
Qed.

Lemma signUp_conflict_witness :
  (exists u, In u (users annState) /\ email u = normalizeEmail "  A@X.Com ")
  /\ signUp "  A@X.Com " "Bob" "hash-2" "U2" "2024-02-02T00:00:00.000Z"
       annState
     = (Thrown "An account already exists for this email address.",
        annState).
Proof.
  assert (H : exists u, In u (users annState)
                        /\ email u = normalizeEmail "  A@X.Com ").
  { exists ann. split; [now left | reflexivity]. }
  split; [exact H | exact (signUp_conflict _ _ _ _ _ _ H)].
Defined.

(** C6. [signIn] throws the authentication error, leaving the state (so
    the current user id) as it was, when no user matches the email or
    when the matched user's stored hash differs from the supplied one;
    when a user matches and the hashes are equal it returns that user,
    and the state it leaves has that user's id as current user id and
    every other field as before.  The matched user is the first user of
    the list whose normalized email agrees. *)
Theorem signIn_spec (st : AppState) (mail pwHash : string) :
  ((forall u, In u (users st) -> ~ matchesEmail u mail) ->
   signIn mail pwHash st = (Thrown "Invalid email or password.", st))
  /\ ((exists u, In u (users st) /\ matchesEmail u mail) ->
      exists v, selectUserByEmail (users st) mail = Some v)
  /\ (forall v, selectUserByEmail (users st) mail = Some v ->
      In v (users st) /\ matchesEmail v mail
      /\ (passwordHash v <> pwHash ->
          signIn mail pwHash st = (Thrown "Invalid email or password.", st))
      /\ (passwordHash v = pwHash ->
          exists st',
            signIn mail pwHash st = (Returned v, st')
            /\ currentUserId st' = Some (user_id v)
            /\ users st' = users st /\ receipts st' = receipts st
            /\ transactions st' = transactions st
            /\ budgets st' = budgets st
            /\ analyticsLog st' = analyticsLog st)).
Proof.
  split; [|split].
  - intros H. apply selectUserByEmail_none in H.
    unfold signIn, bind, get. now rewrite H.
  - intros (u & Hin & Hm). eapply selectUserByEmail_finds; eauto.
  - intros v Hv. destruct (selectUserByEmail_some _ _ _ Hv) as [Hin Hm].
    split; [exact Hin|]. split; [exact Hm|]. split; intros Hh.
    + unfold signIn, bind, get. rewrite Hv.
      apply String.eqb_neq in Hh. now rewrite Hh.
    + eexists. split.
      * unfold signIn, bind, get. rewrite Hv.
        apply String.eqb_eq in Hh. rewrite Hh. reflexivity.
      * repeat split.
Qed.

Lemma signIn_spec_witness :
  currentUserId signedOutState = None
  /\ signIn "nobody@x.com" "hash-1" signedOutState
     = (Thrown "Invalid email or password.", signedOutState)
  /\ signIn " A@x.com" "hash-9" signedOutState
     = (Thrown "Invalid email or password.", signedOutState)
  /\ exists st',
       signIn " A@x.com" "hash-1" signedOutState = (Returned ann, st')
       /\ currentUserId st' = Some "U1".
Proof.
  split; [reflexivity|]. split; [|split].
  - apply (proj1 (signIn_spec signedOutState "nobody@x.com" "hash-1")).
    intros u [<-|[]]. vm_compute. discriminate.
  - apply (proj2 (proj2 (signIn_spec signedOutState " A@x.com" "hash-9"))
             ann); [reflexivity | vm_compute; discriminate].
  - destruct (proj2 (proj2 (signIn_spec signedOutState " A@x.com" "hash-1"))
                ann eq_refl) as (_ & _ & _ & Hok).
    destruct (Hok eq_refl) as (st' & Hrun & Hcur & _).
    exists st'. split; [exact Hrun | exact Hcur].
Defined.

(** ** Budgets *)

(** C4. A call of [upsertBudget] whose limit is zero or negative throws
    the validation error and leaves the whole state, the budget list in
    particular, as it was. *)
Theorem upsertBudget_nonpositive_limit
  (st : AppState) (a : BudgetArgs) (newId now : string) :
  zeroOrNegative (barg_limit a) ->
  upsertBudget a newId now st
  = (Thrown "Budget limit must be greater than zero.", st).
Proof.
  intros H. apply JsFacts.le_zero_iff in H.
  unfold upsertBudget. now rewrite H.
Qed.

Lemma upsertBudget_nonpositive_limit_witness :
  (zeroOrNegative (Js.ofZ 0) /\ zeroOrNegative (Js.ofZ (-25)))
  /\ upsertBudget (foodBudgetArgs None "U1" 0 None) "B2" "now"
       (budgetState foodBudget)
     = (Thrown "Budget limit must be greater than zero.",
        budgetState foodBudget)
  /\ upsertBudget (foodBudgetArgs (Some "B1") "U1" (-25) None) "B2" "now"
       (budgetState foodBudget)
     = (Thrown "Budget limit must be greater than zero.",
        budgetState foodBudget).
Proof.
  assert (H0 : zeroOrNegative (Js.ofZ 0)) by (left; reflexivity).
  assert (H1 : zeroOrNegative (Js.ofZ (-25))) by (right; reflexivity).
  split; [now split|]. split.
  - exact (upsertBudget_nonpositive_limit
             _ (foodBudgetArgs None "U1" 0 None) _ _ H0).
  - exact (upsertBudget_nonpositive_limit
             _ (foodBudgetArgs (Some "B1") "U1" (-25) None) _ _ H1).
Defined.

Lemma find_hasBudgetId_none (id : string) (bs : list Budget) :
  find (hasBudgetId id) bs = None <->
  forall b, In b bs -> budget_id b <> id.
Proof.
  rewrite find_none_iff. unfold hasBudgetId.
  split; intros H b Hb; apply String.eqb_neq; auto.
Qed.

Lemma find_hasBudgetId_some (id : string) (bs : list Budget) (old : Budget) :
  find (hasBudgetId id) bs = Some old -> In old bs /\ budget_id old = id.
Proof.
  intros H. apply find_some in H. unfold hasBudgetId in H.
  now rewrite String.eqb_eq in H.
Qed.

Lemma map_replacedBy (id : string) (b : Budget) (bs : list Budget) :
  Forall2 (replacedBy id b) bs
    (map (fun budget => if budget_id budget =? id then b else budget) bs).
Proof.
  eapply Forall2_weaken; [|apply Forall2_map_graph].
  intros x y _ ->. unfold replacedBy.
  destruct (String.eqb_spec (budget_id x) id); auto.
Qed.

(** The updating branch, once the limit passed validation. *)
Lemma upsertBudget_update
  (st : AppState) (a : BudgetArgs) (newId now id : string) (old : Budget) :
  Js.le (barg_limit a) Js.zero = false ->
  barg_id a = Some id -> id <> "" ->
  find (hasBudgetId id) (budgets st) = Some old ->
  let updated :=
    mkBudget (budget_id old) (budget_userId old) (barg_category a)
             (barg_limit a) (budget_createdAt old)
             (Js.orKeep (barg_rollover a) (rollover old))
             (Js.orKeep (barg_alertThreshold a) (alertThreshold old)) in
  upsertBudget a newId now st
  = (Returned updated,
     set_budgets (map (fun budget => if budget_id budget =? id
                                     then updated else budget)) st).
Proof.
  intros Hl Hid Hne Hf. unfold upsertBudget. rewrite Hl, Hid. simpl.
  apply JsFacts.falsy_nonempty in Hne. rewrite Hne.
  unfold bind, get. unfold hasBudgetId in Hf. now rewrite Hf.
Qed.

(** The creating branch, once the limit passed validation. *)
Lemma upsertBudget_create
  (st : AppState) (a : BudgetArgs) (newId now : string) :
  Js.le (barg_limit a) Js.zero = false ->
  barg_id a = None \/ barg_id a = Some "" ->
  let created :=
    mkBudget newId (barg_userId a) (barg_category a) (barg_limit a) now
             (barg_rollover a) (barg_alertThreshold a) in
  upsertBudget a newId now st
  = (Returned created, set_budgets (cons created) st).
Proof.
  intros Hl Hid. unfold upsertBudget. rewrite Hl.
  destruct Hid as [-> | ->]; reflexivity.
Qed.

(** C3, as the store implements it.  For a call of [upsertBudget] with a
    positive limit:
    - a non-empty id that no stored budget has: the call throws the
      not-found error and the state is unchanged;
    - a non-empty id that a stored budget has: the call returns the first
      such budget with the supplied category and limit, its rollover and
      alert threshold replaced only where the call gives one, and puts it
      at the position of every budget with that id, the list keeping its
      length and its other entries;
    - no id, or the empty string as id: a new budget is created from the
      arguments and put in front of the list. *)
Theorem upsertBudget_spec
  (st : AppState) (a : BudgetArgs) (newId now : string) :
  positive (barg_limit a) ->
  (forall id, barg_id a = Some id -> id <> "" ->
     (forall b, In b (budgets st) -> budget_id b <> id) ->
     upsertBudget a newId now st = (Thrown "Budget not found.", st))
  /\ (forall id, barg_id a = Some id -> id <> "" ->
        (exists x, In x (budgets st) /\ budget_id x = id) ->
        exists old b st',
          find (hasBudgetId id) (budgets st) = Some old
          /\ upsertBudget a newId now st = (Returned b, st')
          /\ budget_id b = id
          /\ budget_category b = barg_category a
          /\ limit b = barg_limit a
          /\ (barg_rollover a = None -> rollover b = rollover old)
          /\ (forall r, barg_rollover a = Some r -> rollover b = Some r)
          /\ (barg_alertThreshold a = None ->
              alertThreshold b = alertThreshold old)
          /\ (forall t, barg_alertThreshold a = Some t ->
              alertThreshold b = Some t)
          /\ Forall2 (replacedBy id b) (budgets st) (budgets st')
          /\ sameButBudgets st st')
  /\ (barg_id a = None \/ barg_id a = Some "" ->
        exists b,
          upsertBudget a newId now st
          = (Returned b, set_budgets (cons b) st)
          /\ b = mkBudget newId (barg_userId a) (barg_category a)
                          (barg_limit a) now (barg_rollover a)
                          (barg_alertThreshold a)).
Proof.
  intros Hpos. apply JsFacts.lt_zero_not_le in Hpos.
  split; [|split].
  - intros id Hid Hne Hnone. apply find_hasBudgetId_none in Hnone.
    unfold upsertBudget. rewrite Hpos, Hid. simpl.
    apply JsFacts.falsy_nonempty in Hne. rewrite Hne.
    unfold bind, get. unfold hasBudgetId in Hnone. now rewrite Hnone.
  - intros id Hid Hne (x & Hx & Hxid).
    destruct (find_exists (hasBudgetId id) _ x Hx) as [old Hold].
    { unfold hasBudgetId. now apply String.eqb_eq. }
    destruct (find_hasBudgetId_some _ _ _ Hold) as [_ Hoid].
    eexists old, _, _.
    split; [exact Hold|].
    split; [exact (upsertBudget_update st a newId now id old
                     Hpos Hid Hne Hold)|].
    simpl. repeat split; trivial.
    + intros ->. reflexivity.
    + intros r ->. reflexivity.
    + intros ->. reflexivity.
    + intros t ->. reflexivity.
    + apply map_replacedBy.
  - intros Hid. eexists. split; [|reflexivity].
    exact (upsertBudget_create st a newId now Hpos Hid).
Qed.

Lemma upsertBudget_spec_witness :
  positive (Js.ofZ 500)
  /\ upsertBudget (foodBudgetArgs (Some "B7") "U1" 500 None) "B2" "now"
       (budgetState foodBudget)
     = (Thrown "Budget not found.", budgetState foodBudget)
  /\ (exists b st',
        upsertBudget (foodBudgetArgs (Some "B1") "U1" 500 None) "B2" "now"
          (budgetState foodBudget) = (Returned b, st')
        /\ rollover b = Some true)
  /\ (exists b,
        upsertBudget (foodBudgetArgs None "U1" 500 None) "B2" "now"
          (budgetState foodBudget)
        = (Returned b, set_budgets (cons b) (budgetState foodBudget))).
Proof.
  assert (Hp : positive (Js.ofZ 500)) by reflexivity.
  split; [exact Hp|]. split; [|split].
  - apply (proj1 (upsertBudget_spec (budgetState foodBudget)
                    (foodBudgetArgs (Some "B7") "U1" 500 None)
                    "B2" "now" Hp) "B7");
      [reflexivity | discriminate |].
    intros b [<-|[]]. discriminate.
  - destruct (proj1 (proj2 (upsertBudget_spec (budgetState foodBudget)
                    (foodBudgetArgs (Some "B1") "U1" 500 None)
                    "B2" "now" Hp)) "B1")
      as (old & b & st' & Hold & Hrun & _ & _ & _ & Hroll & _);
      [reflexivity | discriminate | |].
    + exists foodBudget. split; [now left | reflexivity].
    + exists b, st'. split; [exact Hrun|].
      rewrite (Hroll eq_refl).
      injection Hold as <-. reflexivity.
  - destruct (proj2 (proj2 (upsertBudget_spec (budgetState foodBudget)
                    (foodBudgetArgs None "U1" 500 None)
                    "B2" "now" Hp)))
      as (b & Hrun & _); [now left|].
    now exists b.
Defined.

(** C3 as the specification words it fails: an empty string supplied as
    id is not looked up, the call creates a budget. *)
Lemma upsert_unknown_id_rejected_fails : ~ upsert_unknown_id_rejected.
Proof.
  intros H.
  specialize (H initialState (foodBudgetArgs (Some "") "U1" 500 None)
                "B2" "now" "" eq_refl eq_refl).
  simpl in H. specialize (H (fun b F => match F with end)).
  discriminate H.
Qed.

(** The updating branch in any state: a call of [upsertBudget] that
    supplies a non-empty id reads nothing of its [userId] argument (nor
    of the fresh id and the clock) when a budget has that id; what it
    returns has the id, owner and creation time of the first stored
    budget with that id, every budget with that id is replaced by it and
    the others are kept; when it throws, the state is unchanged. *)
Lemma upsertBudget_update_keeps_owner
  (st : AppState) (a : BudgetArgs) (newId now id : string) (old : Budget) :
  barg_id a = Some id -> id <> "" ->
  find (hasBudgetId id) (budgets st) = Some old ->
  (forall owner newId' now',
     upsertBudget (with_owner owner a) newId' now' st
     = upsertBudget a newId now st)
  /\ (forall b st',
        upsertBudget a newId now st = (Returned b, st') ->
        budget_id b = id
        /\ budget_userId b = budget_userId old
        /\ budget_createdAt b = budget_createdAt old
        /\ Forall2 (replacedBy id b) (budgets st) (budgets st')
        /\ sameButBudgets st st')
  /\ (forall msg st',
        upsertBudget a newId now st = (Thrown msg, st') -> st' = st)
  /\ (Js.le (barg_limit a) Js.zero = false ->
      exists b st', upsertBudget a newId now st = (Returned b, st')).
Proof.
  intros Hid Hne Hold.
  destruct (find_hasBudgetId_some _ _ _ Hold) as [_ Hoid].
  destruct (Js.le (barg_limit a) Js.zero) eqn:Hl.
  - assert (Hthrow : forall o n t,
               upsertBudget (with_owner o a) n t st
               = (Thrown "Budget limit must be greater than zero.", st)).
    { intros o n t. unfold upsertBudget. simpl. now rewrite Hl. }
    assert (Hrun : upsertBudget a newId now st
                   = (Thrown "Budget limit must be greater than zero.", st)).
    { unfold upsertBudget. now rewrite Hl. }
    split; [|split; [|split]].
    + intros o n t. now rewrite Hthrow, Hrun.
    + intros b st'. rewrite Hrun. discriminate.
    + intros msg st'. rewrite Hrun. now intros [= _ <-].
    + discriminate.
  - pose proof (upsertBudget_update st a newId now id old Hl Hid Hne Hold)
      as Hrun.
    split; [|split; [|split]].
    + intros o n t. rewrite Hrun.
      exact (upsertBudget_update st (with_owner o a) n t id old
               Hl Hid Hne Hold).
    + intros b st'. rewrite Hrun. intros [= <- <-]. simpl.
      repeat split; trivial. apply map_replacedBy.
    + intros msg st'. rewrite Hrun. discriminate.
    + intros _. eexists _, _. exact Hrun.
Qed.

(** ** Transactions *)

Lemma removeTransaction_run (st : AppState) (id : string) :
  removeTransaction id st
  = (Returned tt,
     set_transactions (filter (fun tx => negb (tx_id tx =? id)))
       match truthyReceiptId (find (hasTxId id) (transactions st)) with
       | Some rid =>
           set_receipts (filter (fun r => negb (receipt_id r =? rid))) st
       | None => st
       end).
Proof.
  unfold removeTransaction, bind, get, hasTxId.
  destruct (truthyReceiptId _); reflexivity.
Qed.



(** ** Categories *)

Lemma addCustomCategory_run (st : AppState) (userId category : string) :
  Js.trim category <> "" ->
  addCustomCategory userId category st
  = (Returned tt,
     set_users
       (map (fun user =>
               if (user_id user =? userId)
                  && negb (Js.includes (categories user) (Js.trim category))
               then with_plan (subscription user)
                      (categories user ++ [Js.trim category])%list user
               else user)) st).
Proof.
  intros Hne. unfold addCustomCategory.
  apply JsFacts.falsy_nonempty in Hne. now rewrite Hne.
Qed.

(** C9. [addCustomCategory userId category] throws the validation error,
    state unchanged, when the trimmed name is empty.  Otherwise it
    returns, whatever the tier of the user: it appends the trimmed name
    to the categories of a user exactly when that user has the given id
    and does not have the name yet, changes nothing else of that user
    (the subscription in particular) nor of the state, and leaves the
    state as it was when no user has the id or the name is already
    there. *)
Theorem addCustomCategory_spec (st : AppState) (userId category : string) :
  let trimmed := Js.trim category in
  let st' := final (addCustomCategory userId category st) in
  (trimmed = "" ->
   addCustomCategory userId category st
   = (Thrown "Category name cannot be empty.", st))
  /\ (trimmed <> "" ->
      result (addCustomCategory userId category st) = Returned tt
      /\ sameButUsers st st'
      /\ Forall2 (categoryAdded userId trimmed) (users st) (users st')
      /\ ((forall u, In u (users st) -> user_id u <> userId) -> st' = st)
      /\ ((forall u, In u (users st) -> user_id u = userId ->
                     In trimmed (categories u)) -> st' = st)).
Proof.
  intros trimmed st'. subst trimmed st'. split.
  - intros He. unfold addCustomCategory. now rewrite He.
  - intros Hne. rewrite (addCustomCategory_run st userId category Hne).
    unfold result, final. cbn [fst snd].
    split; [reflexivity|]. split; [repeat split|].
    assert (Hnoop :
              (forall u, In u (users st) -> user_id u = userId ->
                         In (Js.trim category) (categories u)) ->
              set_users
                (map (fun user =>
                        if (user_id user =? userId)
                           && negb (Js.includes (categories user)
                                                (Js.trim category))
                        then with_plan (subscription user)
                               (categories user ++ [Js.trim category])%list
                               user
                        else user)) st = st).
    { intros H. unfold set_users. rewrite map_id_on; [apply state_eta|].
      intros u Hu. destruct (String.eqb_spec (user_id u) userId) as [E|E];
        [|reflexivity].
      specialize (H u Hu E). apply JsFacts.includes_In in H.
      now rewrite H. }
    split; [|split].
    + cbn [set_users users].
      eapply Forall2_weaken; [|apply Forall2_map_graph].
      intros u u' _ ->. unfold categoryAdded.
      destruct (String.eqb_spec (user_id u) userId) as [E|E];
        [|right; auto].
      destruct (Js.includes (categories u) (Js.trim category)) eqn:I.
      * right. apply JsFacts.includes_In in I. auto.
      * left. apply JsFacts.includes_not_In in I.
        cbn. repeat split; auto.
    + intros H. apply Hnoop. intros u Hu E. now apply H in Hu.
    + exact Hnoop.
Qed.

Lemma addCustomCategory_spec_witness :
  addCustomCategory "U1" "   " annState
  = (Thrown "Category name cannot be empty.", annState)
  /\ (tier (subscription ann) = free
      /\ result (addCustomCategory "U1" " Pets " annState) = Returned tt
      /\ Forall2 (categoryAdded "U1" "Pets") (users annState)
           (users (final (addCustomCategory "U1" " Pets " annState))))
  /\ final (addCustomCategory "U7" "Pets" annState) = annState
  /\ final (addCustomCategory "U1" "Food" annState) = annState.
Proof.
  split; [|split; [|split]].
  - apply (proj1 (addCustomCategory_spec annState "U1" "   ")).
    reflexivity.
  - destruct (proj2 (addCustomCategory_spec annState "U1" " Pets "))
      as (Hr & _ & Hf & _); [discriminate|].
    split; [reflexivity|]. split; [exact Hr | exact Hf].
  - destruct (proj2 (addCustomCategory_spec annState "U7" "Pets"))
      as (_ & _ & _ & H & _); [discriminate|].
    apply H. intros u [<-|[]]. discriminate.
  - destruct (proj2 (addCustomCategory_spec annState "U1" "Food"))
      as (_ & _ & _ & _ & H); [discriminate|].
    apply H. intros u [<-|[]] _. cbn. tauto.
Defined.

(** ** What a call does to the users *)

Lemma usersChange_refl (us : list User) : usersChange us us.
Proof.
  left. exists (fun u => u). split; [now rewrite map_id | constructor].
Qed.

Lemma usersChange_map (f : User -> User) (us : list User) :
  (forall u, userChange u (f u)) -> usersChange us (map f us).
Proof. intros H. left. now exists f. Qed.

Lemma exec_usersChange (op : Op) (st : AppState) :
  usersChange (users st) (users (exec op st)).
Proof.
  destruct op; cbn [exec]; unfold final.
  - (* signUp *)
    unfold signUp, bind, get.
    destruct (selectUserByEmail (users st) mail); cbn.
    + apply usersChange_refl.
    + right. eexists. split; [reflexivity|]. split; reflexivity.
  - (* signIn *)
    unfold signIn, bind, get.
    destruct (selectUserByEmail (users st) mail) as [u|]; cbn;
      [destruct (negb (passwordHash u =? pwHash)); cbn|];
      apply usersChange_refl.
  - apply usersChange_refl.
  - (* resetPassword *)
    unfold resetPassword, bind, get.
    destruct (selectUserByEmail (users st) mail) as [user|]; cbn;
      [|apply usersChange_refl].
    apply usersChange_map. intros u.
    destruct (user_id u =? user_id user); constructor.
  - apply usersChange_refl.
  - apply usersChange_refl.
  - (* removeTransaction *)
    rewrite removeTransaction_run. cbn.
    destruct (truthyReceiptId _); apply usersChange_refl.
  - apply usersChange_refl.
  - apply usersChange_refl.
  - (* upsertBudget *)
    unfold upsertBudget, bind, get.
    destruct (Js.le (barg_limit a) Js.zero); cbn; [apply usersChange_refl|].
    destruct (truthyId (barg_id a)) as [id|]; cbn;
      [|apply usersChange_refl].
    destruct (find _ (budgets st)); cbn; apply usersChange_refl.
  - apply usersChange_refl.
  - (* upgradeToPremium *)
    apply usersChange_map. intros u.
    destruct (user_id u =? userId); constructor.
  - (* downgradeToFree *)
    apply usersChange_map. intros u.
    destruct (user_id u =? userId); constructor.
  - (* addCustomCategory *)
    unfold addCustomCategory.
    destruct (Js.falsy (Js.trim category)); cbn; [apply usersChange_refl|].
    apply usersChange_map. intros u.
    destruct (user_id u =? userId); cbn; [|constructor].
    destruct (Js.includes (categories u) (Js.trim category)) eqn:I; cbn;
      now constructor.
  - (* importTransactions *)
    unfold importTransactions, bind, get.
    destruct (find _ (users st)); cbn; apply usersChange_refl.
  - (* updateSettings *)
    apply usersChange_map. intros u.
    destruct (user_id u =? userId); constructor.
  - apply usersChange_refl.
Qed.

Section UserInvariant.

Variable P : User -> Prop.
Hypothesis P_new :
  forall u, subscription u = freePlan -> categories u = starterCategories ->
            P u.
Hypothesis P_change : forall u u', userChange u u' -> P u -> P u'.

Lemma usersChange_Forall (us us' : list User) :
  usersChange us us' -> Forall P us -> Forall P us'.
Proof.
  intros [(f & -> & Hf) | (u & -> & Hs & Hc)] H.
  - induction H; simpl; constructor; eauto.
  - apply Forall_app. split; [exact H|]. constructor; auto.
Qed.

Lemma exec_Forall_users (op : Op) (st : AppState) :
  Forall P (users st) -> Forall P (users (exec op st)).
Proof. apply usersChange_Forall, exec_usersChange. Qed.

Lemma reachable_Forall_users (st : AppState) :
  reachable st -> Forall P (users st).
Proof.
  induction 1 as [|op st _ IH]; [constructor | now apply exec_Forall_users].
Qed.

End UserInvariant.

Lemma keepsStarter_new (u : User) :
  subscription u = freePlan -> categories u = starterCategories ->
  keepsStarter u.
Proof. intros _ Hc _. rewrite Hc. apply incl_refl. Qed.

Lemma keepsStarter_change (u u' : User) :
  userChange u u' -> keepsStarter u -> keepsStarter u'.
Proof.
  unfold keepsStarter.
  intros C. destruct C; cbn; intros K Ht; auto; try discriminate.
  - apply incl_refl.
  - apply incl_appl. auto.
Qed.

Lemma downgradeToFree_users (st : AppState) (userId : string) :
  Forall2 (downgraded userId) (users st)
    (users (final (downgradeToFree userId st))).
Proof.
  cbn. eapply Forall2_weaken; [|apply Forall2_map_graph].
  intros u u' _ ->. unfold downgraded.
  destruct (String.eqb_spec (user_id u) userId); [left | right; auto].
  cbn. repeat split; auto.
Qed.

Lemma reachable_execAll (ops : list Op) (st : AppState) :
  reachable st -> reachable (execAll ops st).
Proof.
  revert st. induction ops as [|op ops IH]; intros st H; simpl; auto.
  apply IH. now constructor.
Qed.

(** ** The free tier keeps the starter categories *)

(** C1. In every reachable state the categories of every user on the
    free tier contain the first six default categories; every store
    call, returning or throwing, preserves this from any state that has
    it; and [downgradeToFree userId] leaves every user with that id with
    exactly the first six defaults as categories, on the free plan. *)
Theorem free_tier_keeps_starter :
  (forall st, reachable st ->
     forall u, In u (users st) -> tier (subscription u) = free ->
     forall c, In c starterCategories -> In c (categories u))
  /\ (forall op st, freeKeepStarter st -> freeKeepStarter (exec op st))
  /\ (forall st userId,
        Forall2 (fun u u' =>
                   user_id u' = user_id u
                   /\ (user_id u = userId ->
                       categories u' = starterCategories
                       /\ tier (subscription u') = free))
                (users st) (users (final (downgradeToFree userId st))))
  /\ starterCategories
     = ["Salary"; "Rent"; "Food"; "Transportation"; "Entertainment";
        "Utilities"].
Proof.
  split; [|split; [|split]].
  - intros st Hr u Hu Ht c Hc.
    pose proof (reachable_Forall_users keepsStarter keepsStarter_new
                  keepsStarter_change st Hr) as H.
    rewrite Forall_forall in H. exact (H u Hu Ht c Hc).
  - intros op st. apply exec_Forall_users.
    + exact keepsStarter_new.
    + exact keepsStarter_change.
  - intros st userId.
    eapply Forall2_weaken; [|apply downgradeToFree_users].
    intros u u' _ [(E & Hs & Hc & Hsame) | (Hne & ->)].
    + split; [apply Hsame|]. intros _. split; [exact Hc | now rewrite Hs].
    + split; [reflexivity|]. intros E. contradiction.
  - reflexivity.
Qed.

Lemma free_tier_keeps_starter_witness :
  reachable sampleRun
  /\ In annWithPets (users sampleRun)
  /\ tier (subscription annWithPets) = free
  /\ In "Utilities" (categories annWithPets).
Proof.
  assert (Hr : reachable sampleRun)
    by (apply reachable_execAll; constructor).
  assert (Hu : In annWithPets (users sampleRun)) by (left; reflexivity).
  repeat split; trivial.
  apply (proj1 free_tier_keeps_starter sampleRun Hr annWithPets Hu eq_refl).
  cbn. tauto.
Defined.

(** ** Upgrade and downgrade *)

Lemma NoDup_DEFAULT_CATEGORIES : NoDup DEFAULT_CATEGORIES.
Proof.
  unfold DEFAULT_CATEGORIES.
  repeat (constructor; [cbn; intuition discriminate|]). constructor.
Qed.

Lemma NoDup_starterCategories : NoDup starterCategories.
Proof.
  cbn. repeat (constructor; [cbn; intuition discriminate|]). constructor.
Qed.

Lemma missingDefaults_In (cats : list string) (c : string) :
  In c (filter (fun category => negb (Js.includes cats category))
               DEFAULT_CATEGORIES)
  <-> In c DEFAULT_CATEGORIES /\ ~ In c cats.
Proof.
  rewrite filter_In, negb_true_iff, JsFacts.includes_not_In. tauto.
Qed.

Lemma withMissingDefaults_In (cats : list string) (c : string) :
  In c (withMissingDefaults cats) <-> In c cats \/ In c DEFAULT_CATEGORIES.
Proof.
  unfold withMissingDefaults. rewrite in_app_iff, missingDefaults_In.
  destruct (in_dec string_dec c cats); tauto.
Qed.

Lemma withMissingDefaults_NoDup (cats : list string) :
  NoDup cats -> NoDup (withMissingDefaults cats).
Proof.
  intros H. unfold withMissingDefaults. apply NoDup_app; trivial.
  - apply NoDup_filter, NoDup_DEFAULT_CATEGORIES.
  - intros c Hc Hin. apply missingDefaults_In in Hin. tauto.
Qed.

Lemma withMissingDefaults_idem (cats : list string) :
  withMissingDefaults (withMissingDefaults cats) = withMissingDefaults cats.
Proof.
  unfold withMissingDefaults at 1.
  replace (filter _ DEFAULT_CATEGORIES) with (@nil string);
    [apply app_nil_r|].
  symmetry.
  destruct (filter _ DEFAULT_CATEGORIES) as [|c l] eqn:E; [reflexivity|].
  assert (Hc : In c (c :: l)) by now left.
  rewrite <- E in Hc. apply missingDefaults_In in Hc.
  destruct Hc as [Hd Hn]. exfalso. apply Hn.
  apply withMissingDefaults_In. now right.
Qed.

Lemma upgradeToPremium_users (st : AppState) (userId renewal : string) :
  Forall2 (upgraded userId renewal) (users st)
    (users (final (upgradeToPremium userId renewal st))).
Proof.
  cbn. eapply Forall2_weaken; [|apply Forall2_map_graph].
  intros u u' _ ->. unfold upgraded.
  destruct (String.eqb_spec (user_id u) userId); [left | right; auto].
  cbn. repeat split; auto.
Qed.

Lemma upgradeToPremium_twice (st : AppState) (userId r1 r2 : string) :
  final (upgradeToPremium userId r2 (final (upgradeToPremium userId r1 st)))
  = final (upgradeToPremium userId r2 st).
Proof.
  unfold upgradeToPremium, set, final, set_users.
  cbn [snd users receipts transactions budgets analyticsLog currentUserId].
  f_equal. rewrite map_map. apply map_ext. intros u.
  destruct (String.eqb_spec (user_id u) userId) as [E|E].
  - cbn [with_plan user_id categories]. apply String.eqb_eq in E.
    rewrite E. unfold with_plan.
    cbn [user_id email name passwordHash user_createdAt settings categories].
    now rewrite withMissingDefaults_idem.
  - apply String.eqb_neq in E. now rewrite E.
Qed.

Lemma NoDup_change (u u' : User) :
  userChange u u' -> NoDup (categories u) -> NoDup (categories u').
Proof.
  intros C. destruct C; cbn; intros K; trivial.
  - now apply withMissingDefaults_NoDup.
  - apply NoDup_starterCategories.
  - apply NoDup_app; trivial.
    + constructor; [intros []|constructor].
    + intros c Hc [<-|[]]. apply JsFacts.includes_not_In in H. tauto.
Qed.

Lemma reachable_NoDup_categories (st : AppState) :
  reachable st -> Forall (fun u => NoDup (categories u)) (users st).
Proof.
  apply reachable_Forall_users.
  - intros u _ ->. apply NoDup_starterCategories.
  - apply NoDup_change.
Qed.

(** C8. [upgradeToPremium userId] returns and touches only users with
    that id: it puts them on the premium plan and replaces their
    categories by the current ones followed by the default categories
    that are missing, so that the result holds exactly the current
    categories and the defaults, the current ones first and untouched,
    and what is added is duplicate-free.  A second call in a row changes
    no category list and gives the state one call gives.  Consequently,
    in every state the store reaches, the category lists after two
    upgrades in a row have no duplicate entry; from any state at all, a
    list that had no duplicate has none afterwards. *)
Theorem upgradeToPremium_spec (st : AppState) (userId r1 r2 : string) :
  let st1 := final (upgradeToPremium userId r1 st) in
  let st2 := final (upgradeToPremium userId r2 st1) in
  result (upgradeToPremium userId r1 st) = Returned tt
  /\ sameButUsers st st1
  /\ Forall2 (upgraded userId r1) (users st) (users st1)
  /\ (forall cats,
        (forall c, In c (withMissingDefaults cats)
                   <-> In c cats \/ In c DEFAULT_CATEGORIES)
        /\ (exists added,
              withMissingDefaults cats = (cats ++ added)%list
              /\ NoDup added
              /\ forall c, In c added
                           <-> In c DEFAULT_CATEGORIES /\ ~ In c cats))
  /\ Forall2 (fun u1 u2 => categories u2 = categories u1)
             (users st1) (users st2)
  /\ st2 = final (upgradeToPremium userId r2 st)
  /\ Forall2 (fun u u2 => NoDup (categories u) -> NoDup (categories u2))
             (users st) (users st2)
  /\ (reachable st -> Forall (fun u => NoDup (categories u)) (users st2)).
Proof.
  intros st1 st2.
  assert (Htwice : st2 = final (upgradeToPremium userId r2 st))
    by apply upgradeToPremium_twice.
  split; [reflexivity|]. split; [repeat split|].
  split; [apply upgradeToPremium_users|].
  split; [|split; [|split; [|split]]].
  - intros cats. split; [apply withMissingDefaults_In|].
    eexists. split; [reflexivity|]. split.
    + apply NoDup_filter, NoDup_DEFAULT_CATEGORIES.
    + apply missingDefaults_In.
  - subst st2 st1.
    unfold upgradeToPremium, set, final, set_users.
    cbn [snd users].
    eapply Forall2_weaken; [|apply Forall2_map_graph].
    intros u1 u2 Hin ->. apply in_map_iff in Hin.
    destruct Hin as (u & <- & _).
    destruct (String.eqb_spec (user_id u) userId) as [E|E].
    + cbn [with_plan user_id]. apply String.eqb_eq in E. rewrite E.
      cbn [with_plan categories]. apply withMissingDefaults_idem.
    + apply String.eqb_neq in E. now rewrite E.
  - exact Htwice.
  - rewrite Htwice.
    eapply Forall2_weaken; [|apply upgradeToPremium_users].
    intros u u2 _ [(_ & _ & -> & _) | (_ & ->)]; trivial.
    apply withMissingDefaults_NoDup.
  - intros Hr. apply reachable_NoDup_categories.
    apply (reachable_exec (UpgradeToPremium userId r2)).
    now apply (reachable_exec (UpgradeToPremium userId r1)).
Qed.

Lemma upgradeToPremium_spec_witness :
  reachable sampleRun
  /\ Forall (fun u => NoDup (categories u))
       (users (final (upgradeToPremium "U1" "2024-03-01T00:00:00.000Z"
                        (final (upgradeToPremium "U1"
                                  "2024-03-01T00:00:00.000Z" sampleRun))))).
Proof.
  assert (Hr : reachable sampleRun)
    by (apply reachable_execAll; constructor).
  split; [exact Hr|].
  destruct (upgradeToPremium_spec sampleRun "U1"
              "2024-03-01T00:00:00.000Z" "2024-03-01T00:00:00.000Z")
    as (_ & _ & _ & _ & _ & _ & _ & H).
  exact (H Hr).
Defined.

Lemma filter_filter_absorb {A} (p q : A -> bool) (l : list A) :
  (forall x, p x = true -> q x = true) ->
  filter p (filter q l) = filter p l.
Proof.
  intros H. induction l as [|a l IH]; simpl; [reflexivity|].
  destruct (q a) eqn:Q; simpl.
  - now rewrite IH.
  - rewrite IH. destruct (p a) eqn:Pa; [|reflexivity].
    rewrite (H a Pa) in Q. discriminate.
Qed.

Lemma survives_not_lost (userId owner category : string) :
  survivesDowngrade userId owner category
  = negb (lostOnDowngrade userId owner category).
Proof.
  unfold survivesDowngrade, lostOnDowngrade.
  destruct (owner =? userId), (Js.includes starterCategories category);
    reflexivity.
Qed.

Lemma lostOnDowngrade_spec (userId owner category : string) :
  lostOnDowngrade userId owner category = true
  <-> owner = userId /\ ~ In category starterCategories.
Proof.
  unfold lostOnDowngrade.
  rewrite andb_true_iff, negb_true_iff, String.eqb_eq,
    JsFacts.includes_not_In.
  tauto.
Qed.

(** C2. [downgradeToFree userId] returns; it puts every user with that id
    on the free, active plan without renewal date and with exactly the
    first six defaults as categories, their other fields and the other
    users being kept; it removes from the budgets and from the
    transactions exactly the entries owned by [userId] whose category is
    not among the first six defaults, keeping the order of the rest; the
    budgets and transactions of every other user, the receipts, the log
    and the current user are unchanged. *)
Theorem downgradeToFree_spec (st : AppState) (userId : string) :
  let st' := final (downgradeToFree userId st) in
  result (downgradeToFree userId st) = Returned tt
  /\ Forall2 (downgraded userId) (users st) (users st')
  /\ budgets st'
     = filter (fun b => negb (lostOnDowngrade userId (budget_userId b)
                                              (budget_category b)))
              (budgets st)
  /\ (forall b, In b (budgets st')
                <-> In b (budgets st)
                    /\ ~ (budget_userId b = userId
                          /\ ~ In (budget_category b) starterCategories))
  /\ transactions st'
     = filter (fun t => negb (lostOnDowngrade userId (tx_userId t)
                                              (tx_category t)))
              (transactions st)
  /\ (forall t, In t (transactions st')
                <-> In t (transactions st)
                    /\ ~ (tx_userId t = userId
                          /\ ~ In (tx_category t) starterCategories))
  /\ filter (fun b => negb (budget_userId b =? userId)) (budgets st')
     = filter (fun b => negb (budget_userId b =? userId)) (budgets st)
  /\ filter (fun t => negb (tx_userId t =? userId)) (transactions st')
     = filter (fun t => negb (tx_userId t =? userId)) (transactions st)
  /\ receipts st' = receipts st
  /\ analyticsLog st' = analyticsLog st
  /\ currentUserId st' = currentUserId st.
Proof.
  intros st'.
  assert (Hb : budgets st'
               = filter (fun b => negb (lostOnDowngrade userId
                                          (budget_userId b)
                                          (budget_category b)))
                        (budgets st)).
  { subst st'. cbn. apply filter_ext. intros b. apply survives_not_lost. }
  assert (Ht : transactions st'
               = filter (fun t => negb (lostOnDowngrade userId
                                          (tx_userId t) (tx_category t)))
                        (transactions st)).
  { subst st'. cbn. apply filter_ext. intros t. apply survives_not_lost. }
  split; [reflexivity|].
  split; [apply downgradeToFree_users|].
  split; [exact Hb|]. split.
  { intros b. rewrite Hb, filter_In, negb_true_iff.
    rewrite <- lostOnDowngrade_spec.
    destruct (lostOnDowngrade _ _ _); intuition congruence. }
  split; [exact Ht|]. split.
  { intros t. rewrite Ht, filter_In, negb_true_iff.
    rewrite <- lostOnDowngrade_spec.
    destruct (lostOnDowngrade _ _ _); intuition congruence. }
  split.
  { rewrite Hb. apply filter_filter_absorb. intros b Hne.
    unfold lostOnDowngrade. apply negb_true_iff in Hne. now rewrite Hne. }
  split.
  { rewrite Ht. apply filter_filter_absorb. intros t Hne.
    unfold lostOnDowngrade. apply negb_true_iff in Hne. now rewrite Hne. }
  repeat split.
Qed.

Lemma downgradeToFree_spec_witness :
  budgets (final (downgradeToFree "U1" premiumState))
  = [foodBudget; travelBudget "B3" "U2"]
  /\ Forall2 (downgraded "U1") (users premiumState)
       (users (final (downgradeToFree "U1" premiumState))).
Proof.
  destruct (downgradeToFree_spec premiumState "U1")
    as (_ & Hu & Hb & _).
  split; [rewrite Hb; reflexivity | exact Hu].
Defined.

(** ** One call, field by field *)

Ltac op_cases :=
  cbn [exec thrownBy]; rewrite ?removeTransaction_run;
  unfold thrown, result, final;
  unfold signUp, signIn, signOut, resetPassword, addTransaction,
    updateTransaction, removeTransaction, addReceipt, removeReceipt,
    upsertBudget, removeBudget, upgradeToPremium, downgradeToFree,
    addCustomCategory, importTransactions, updateSettings,
    sendAnalyticsEmail, bind, get, set, ret, throw;
  cbv beta zeta; cbn [fst snd];
  repeat (match goal with
          | |- context [match ?x with _ => _ end] =>
              lazymatch x with
              | context [match _ with _ => _ end] => fail
              | _ => destruct x eqn:?
              end
          end; cbv beta zeta; cbn [fst snd]);
  cbn [fst snd users receipts transactions budgets analyticsLog
       currentUserId set_users set_receipts set_transactions set_budgets
       set_analyticsLog set_currentUserId].

Lemma usersStep_refl (us : list User) : usersStep us us.
Proof.
  left. exists (fun u => u). split; [now rewrite map_id | constructor].
Qed.

Lemma usersStep_map (f : User -> User) (us : list User) :
  (forall u, userChange u (f u)) -> usersStep us (map f us).
Proof. intros H. left. now exists f. Qed.

Lemma exec_usersStep (op : Op) (st : AppState) :
  usersStep (users st) (users (exec op st)).
Proof.
  destruct op; op_cases; try apply usersStep_refl.
  all: try (apply usersStep_map; intros u';
            repeat (match goal with
                    | |- context [String.eqb ?a ?b] =>
                        destruct (String.eqb a b) eqn:?
                    | |- context [Js.includes ?a ?b] =>
                        destruct (Js.includes a b) eqn:?
                    end; cbn [andb negb]);
            now constructor).
  all: right; eexists mail, _; repeat split; trivial.
Qed.

Lemma exec_currentStep (op : Op) (st : AppState) :
  currentStep st (exec op st).
Proof.
  destruct op; op_cases; try (left; reflexivity).
  - right. right. eexists. split; [apply in_or_app; right; now left|].
    reflexivity.
  - right. right. eexists. split; [apply in_or_app; right; now left|].
    reflexivity.
  - right. right.
    match goal with
    | H : selectUserByEmail _ _ = Some ?u |- _ =>
        exists u; split; [apply (selectUserByEmail_some _ _ _ H) | reflexivity]
    end.
  - right. left. reflexivity.
Qed.

Lemma budgetsStep_refl (bs : list Budget) : budgetsStep bs bs.
Proof. left. exists (fun _ => true). symmetry. apply filter_true. Qed.

Lemma exec_budgetsStep (op : Op) (st : AppState) :
  budgetsStep (budgets st) (budgets (exec op st)).
Proof.
  destruct op; op_cases; try apply budgetsStep_refl.
  all: try (left; eexists; reflexivity).
  - right. right. eexists _, (fun x => budget_id x =? _).
    split; [|reflexivity]. assumption.
  - right. left. eexists. split; [|reflexivity]. assumption.
Qed.

Lemma exec_logStep (op : Op) (st : AppState) :
  logStep (analyticsLog st) (analyticsLog (exec op st)).
Proof.
  destruct op; op_cases; try (left; reflexivity).
  right. eexists. reflexivity.
Qed.

(** ** Invariants of reachable states *)

Lemma userChange_identity (u u' : User) :
  userChange u u' ->
  user_id u' = user_id u /\ email u' = email u
  /\ user_createdAt u' = user_createdAt u /\ name u' = name u.
Proof. intros C. destruct C; repeat split. Qed.

Lemma map_ext_on {A B} (f : A -> A) (g : A -> B) (l : list A) :
  (forall x, g (f x) = g x) -> map g (map f l) = map g l.
Proof. intros H. rewrite map_map. apply map_ext. exact H. Qed.

Lemma NoDup_map_injective_on {A B} (f : A -> B) (l : list A) (x y : A) :
  NoDup (map f l) -> In x l -> In y l -> f x = f y -> x = y.
Proof.
  induction l as [|a l IH]; simpl; [tauto|].
  intros N Hx Hy E. apply NoDup_cons_iff in N. destruct N as [Na N].
  destruct Hx as [<-|Hx], Hy as [<-|Hy]; trivial.
  - exfalso. apply Na. rewrite E. now apply in_map.
  - exfalso. apply Na. rewrite <- E. now apply in_map.
  - now apply IH.
Qed.

Lemma usersStep_emailsUnique (us us' : list User) :
  usersStep us us' ->
  NoDup (map email us)
  /\ Forall (fun u => email u = normalizeEmail (email u)) us ->
  NoDup (map email us')
  /\ Forall (fun u => email u = normalizeEmail (email u)) us'.
Proof.
  intros [(f & -> & Hf) | (mail & u & Hnone & -> & Hu)] [N F].
  - assert (He : forall x, email (f x) = email x)
      by (intros x; apply (userChange_identity _ _ (Hf x))).
    split.
    + now rewrite (map_ext_on f email us He).
    + rewrite Forall_forall in *. intros x Hx.
      apply in_map_iff in Hx. destruct Hx as (y & <- & Hy).
      rewrite He. now apply F.
  - rewrite map_app. cbn [map]. split.
    + apply NoDup_app; trivial.
      * constructor; [intros []|constructor].
      * intros e He [<-|[]]. apply in_map_iff in He.
        destruct He as (v & Hv & Hin).
        rewrite Forall_forall in F.
        apply (proj1 (selectUserByEmail_none us mail) Hnone v Hin).
        unfold matchesEmail. rewrite Hv, Hu.
        apply normalizeEmail_idem.
    + apply Forall_app. split; trivial. constructor; [|constructor].
      rewrite Hu. symmetry. apply normalizeEmail_idem.
Qed.

Lemma reachable_emailsUnique (st : AppState) :
  reachable st -> emailsUnique st.
Proof.
  induction 1 as [|op st _ IH].
  - split; constructor.
  - apply (usersStep_emailsUnique _ _ (exec_usersStep op st) IH).
Qed.

(** X1. In every reachable state the stored emails are in normalized
    form and pairwise distinct, and looking a stored user up by its own
    email gives that very user. *)
Theorem stored_emails_unique (st : AppState) :
  reachable st ->
  NoDup (map email (users st))
  /\ (forall u, In u (users st) -> email u = normalizeEmail (email u))
  /\ (forall u, In u (users st) ->
                selectUserByEmail (users st) (email u) = Some u).
Proof.
  intros Hr. destruct (reachable_emailsUnique st Hr) as [N F].
  rewrite Forall_forall in F. repeat split; trivial.
  intros u Hu.
  destruct (selectUserByEmail_finds (users st) (email u) u Hu eq_refl)
    as [v Hv].
  rewrite Hv. f_equal.
  destruct (selectUserByEmail_some _ _ _ Hv) as [Hin Hm].
  unfold matchesEmail in Hm. rewrite <- (F v Hin), <- (F u Hu) in Hm.
  exact (NoDup_map_injective_on email (users st) v u N Hin Hu Hm).
Qed.

Lemma stored_emails_unique_witness :
  reachable sampleRun
  /\ selectUserByEmail (users sampleRun) "a@x.com" = Some annWithPets.
Proof.
  assert (Hr : reachable sampleRun)
    by (apply reachable_execAll; constructor).
  split; [exact Hr|].
  apply (proj2 (proj2 (stored_emails_unique sampleRun Hr)) annWithPets).
  left. reflexivity.
Defined.

Lemma usersStep_keeps_ids (us us' : list User) :
  usersStep us us' ->
  forall u, In u us -> exists u', In u' us' /\ user_id u' = user_id u.
Proof.
  intros [(f & -> & Hf) | (mail & v & _ & -> & _)] u Hu.
  - exists (f u). split; [now apply in_map|].
    apply (userChange_identity _ _ (Hf u)).
  - exists u. split; [apply in_or_app; now left | reflexivity].
Qed.

Lemma exec_currentUserStored (op : Op) (st : AppState) :
  currentUserStored st -> currentUserStored (exec op st).
Proof.
  intros Inv id Hid.
  destruct (exec_currentStep op st) as [E | [E | (u & Hu & E)]].
  - rewrite E in Hid. destruct (Inv id Hid) as (u & Hu & Hi).
    destruct (usersStep_keeps_ids _ _ (exec_usersStep op st) u Hu)
      as (u' & Hu' & Hi').
    exists u'. split; [exact Hu' | congruence].
  - congruence.
  - exists u. split; [exact Hu | congruence].
Qed.

Lemma find_by_id_exists (us : list User) (id : string) :
  (exists u, In u us /\ user_id u = id) ->
  exists v, find (fun candidate => user_id candidate =? id) us = Some v
            /\ In v us /\ user_id v = id.
Proof.
  intros (u & Hu & Hi).
  destruct (find_exists (fun c => user_id c =? id) us u Hu) as [v Hv].
  { now apply String.eqb_eq. }
  exists v. split; [exact Hv|]. apply find_some in Hv.
  now rewrite String.eqb_eq in Hv.
Qed.

(** X2. In every reachable state the current user id, when there is one,
    is the id of a stored user, so that [useAuth] gives the page a user
    with that id; with no current user id it gives none.  Every call
    preserves this from any state that has it. *)
Theorem current_user_is_stored :
  (forall st, reachable st ->
     forall id, currentUserId st = Some id ->
     exists u, useAuth st = Some u /\ In u (users st) /\ user_id u = id)
  /\ (forall st, currentUserId st = None -> useAuth st = None)
  /\ (forall op st, currentUserStored st -> currentUserStored (exec op st)).
Proof.
  split; [|split].
  - intros st Hr id Hid.
    assert (Inv : currentUserStored st).
    { clear id Hid. induction Hr as [|op st _ IH].
      - intros id Hid. discriminate Hid.
      - now apply exec_currentUserStored. }
    unfold useAuth. rewrite Hid. apply find_by_id_exists. now apply Inv.
  - intros st Hnone. unfold useAuth. now rewrite Hnone.
  - exact exec_currentUserStored.
Qed.

Lemma current_user_is_stored_witness :
  reachable sampleRun
  /\ currentUserId sampleRun = Some "U1"
  /\ exists u, useAuth sampleRun = Some u /\ In u (users sampleRun)
               /\ user_id u = "U1".
Proof.
  assert (Hr : reachable sampleRun)
    by (apply reachable_execAll; constructor).
  split; [exact Hr|]. split; [reflexivity|].
  exact (proj1 current_user_is_stored sampleRun Hr "U1" eq_refl).
Defined.

Lemma usersStep_identity (us us' : list User) :
  usersStep us us' ->
  exists more, map userIdentity us' = (map userIdentity us ++ more)%list
               /\ List.length more <= 1.
Proof.
  intros [(f & -> & Hf) | (mail & v & _ & -> & _)].
  - exists []. rewrite app_nil_r. split; [|cbn; lia].
    apply map_ext_on. intros u. unfold userIdentity.
    destruct (userChange_identity _ _ (Hf u)) as (-> & -> & -> & _).
    reflexivity.
  - exists [userIdentity v]. split; [apply map_app | cbn; lia].
Qed.

(** X3. No run of calls removes a user or changes the id, the email or
    the creation time of one: the identities of the users a run starts
    with are the beginning, in order, of the identities it ends with,
    and each call adds at most one user. *)
Theorem users_only_grow (ops : list Op) (st : AppState) :
  exists more,
    map userIdentity (users (execAll ops st))
    = (map userIdentity (users st) ++ more)%list
    /\ List.length more <= List.length ops.
Proof.
  revert st. induction ops as [|op ops IH]; intros st; cbn [execAll].
  - exists []. split; [now rewrite app_nil_r | cbn; lia].
  - destruct (IH (exec op st)) as (more & E & L).
    destruct (usersStep_identity _ _ (exec_usersStep op st))
      as (one & E1 & L1).
    exists (one ++ more)%list. split.
    + now rewrite E, E1, app_assoc.
    + rewrite List.length_app. cbn [List.length]. lia.
Qed.

(** X4. The analytics log is append-only: after any run of calls the log
    the run started with is still there, unchanged, behind the entries
    the run put in front of it, at most one per call. *)
Theorem analytics_log_append_only (ops : list Op) (st : AppState) :
  exists newer,
    analyticsLog (execAll ops st) = (newer ++ analyticsLog st)%list
    /\ List.length newer <= List.length ops.
Proof.
  revert st. induction ops as [|op ops IH]; intros st; cbn [execAll].
  - exists []. split; [reflexivity | cbn; lia].
  - destruct (IH (exec op st)) as (newer & E & L).
    destruct (exec_logStep op st) as [E1 | (entry & E1)]; rewrite E, E1.
    + exists newer. split; [reflexivity | cbn [List.length]; lia].
    + exists (newer ++ [entry])%list. split.
      * now rewrite <- app_assoc.
      * rewrite List.length_app. cbn [List.length]. lia.
Qed.

Lemma budgetsStep_validLimit (bs bs' : list Budget) :
  budgetsStep bs bs' -> Forall validLimit bs -> Forall validLimit bs'.
Proof.
  intros [(keep & ->) | [(b & Hb & ->) | (b & change & Hb & ->)]] F.
  - rewrite Forall_forall in *. intros x Hx. apply filter_In in Hx.
    now apply F.
  - now constructor.
  - rewrite Forall_forall in *. intros x Hx. apply in_map_iff in Hx.
    destruct Hx as (y & <- & Hy). destruct (change y); auto.
Qed.

(** X5. Every budget of a reachable state has a limit that passed the
    validation of [upsertBudget], that is, a limit for which
    [limit <= 0] is false; every call preserves this from any state
    that has it. *)
Theorem budget_limits_valid :
  (forall st, reachable st -> Forall validLimit (budgets st))
  /\ (forall op st, Forall validLimit (budgets st) ->
                    Forall validLimit (budgets (exec op st))).
Proof.
  assert (Hstep : forall op st, Forall validLimit (budgets st) ->
                                Forall validLimit (budgets (exec op st))).
  { intros op st. apply budgetsStep_validLimit, exec_budgetsStep. }
  split; [|exact Hstep].
  induction 1 as [|op st _ IH]; [constructor | now apply Hstep].
Qed.

(** X6. A call that throws leaves the state exactly as it was, and what
    it throws is one of the seven messages of the store. *)
Theorem throwing_changes_nothing (op : Op) (st : AppState) (msg : string) :
  thrownBy op st = Some msg -> exec op st = st /\ In msg errorMessages.
Proof.
  destruct op; op_cases; intros [= <-];
    (split; [reflexivity|]); unfold errorMessages; cbn [In];
    repeat (first [left; reflexivity | right]).
Qed.

Lemma throwing_changes_nothing_witness :
  thrownBy (UpsertBudget (foodBudgetArgs (Some "B7") "U1" 500 None)
              "B2" "now") (budgetState foodBudget)
  = Some "Budget not found."
  /\ exec (UpsertBudget (foodBudgetArgs (Some "B7") "U1" 500 None)
             "B2" "now") (budgetState foodBudget)
     = budgetState foodBudget.
Proof.
  split; [reflexivity|].
  exact (proj1 (throwing_changes_nothing
                  (UpsertBudget (foodBudgetArgs (Some "B7") "U1" 500 None)
                     "B2" "now")
                  (budgetState foodBudget) "Budget not found." eq_refl)).
Defined.

Lemma budget_limits_valid_witness :
  Forall validLimit (budgets (budgetState foodBudget))
  /\ Forall validLimit
       (budgets (exec (UpsertBudget (foodBudgetArgs (Some "B1") "U1" 700 None)
                         "B2" "now") (budgetState foodBudget))).
Proof.
  assert (H : Forall validLimit (budgets (budgetState foodBudget)))
    by (repeat constructor).
  split; [exact H|]. exact (proj2 budget_limits_valid _ _ H).
Defined.

(** ** Accounts *)

Lemma find_app_none {A} (p : A -> bool) (l l' : list A) :
  find p l = None -> find p (l ++ l') = find p l'.
Proof.
  induction l as [|a l IH]; simpl; [reflexivity|].
  destruct (p a); [discriminate | exact IH].
Qed.

Lemma find_map_stable {A} (p : A -> bool) (f : A -> A) (l : list A) :
  (forall x, p (f x) = p x) ->
  find p (map f l) = option_map f (find p l).
Proof.
  intros H. induction l as [|a l IH]; simpl; [reflexivity|].
  rewrite H. destruct (p a); [reflexivity | exact IH].
Qed.

Lemma selectUserByEmail_normalized (us : list User) (m1 m2 : string) :
  normalizeEmail m1 = normalizeEmail m2 ->
  selectUserByEmail us m1 = selectUserByEmail us m2.
Proof. intros H. unfold selectUserByEmail. now rewrite H. Qed.

(** X7. When no stored user matches the email, [signUp] returns the new
    id and makes it the current user id; from then on [signIn] with any
    spelling of that email that normalizes to the same address and with
    the same password hash returns the new user and leaves the state as
    it is, and with any other hash it throws. *)
Theorem signUp_then_signIn
  (st : AppState) (mail mail' nm pwHash newId now : string) :
  (forall u, In u (users st) -> ~ matchesEmail u mail) ->
  normalizeEmail mail' = normalizeEmail mail ->
  let st1 := final (signUp mail nm pwHash newId now st) in
  result (signUp mail nm pwHash newId now st) = Returned newId
  /\ currentUserId st1 = Some newId
  /\ exists u,
       In u (users st1) /\ user_id u = newId
       /\ email u = normalizeEmail mail /\ passwordHash u = pwHash
       /\ signIn mail' pwHash st1 = (Returned u, st1)
       /\ (forall other, other <> pwHash ->
             signIn mail' other st1
             = (Thrown "Invalid email or password.", st1)).
Proof.
  intros Hnone Hnorm st1.
  apply selectUserByEmail_none in Hnone.
  assert (Hrun : signUp mail nm pwHash newId now st
                 = (Returned newId,
                    set_currentUserId (Some newId)
                      (set_users
                         (fun us =>
                            (us ++ [mkUser newId (normalizeEmail mail)
                                      (if Js.falsy (Js.trim nm)
                                       then "New Member" else Js.trim nm)
                                      pwHash now freePlan
                                      (mkUserSettings "USD" true false true)
                                      starterCategories])%list) st))).
  { unfold signUp, bind, get. now rewrite Hnone. }
  subst st1. rewrite Hrun. unfold result, final. cbn [fst snd].
  split; [reflexivity|]. split; [reflexivity|].
  eexists. split; [cbn; apply in_or_app; right; left; reflexivity|].
  cbn [user_id email passwordHash].
  split; [reflexivity|]. split; [reflexivity|]. split; [reflexivity|].
  assert (Hsel : selectUserByEmail
                   (users st ++
                      [mkUser newId (normalizeEmail mail)
                         (if Js.falsy (Js.trim nm)
                          then "New Member" else Js.trim nm)
                         pwHash now freePlan
                         (mkUserSettings "USD" true false true)
                         starterCategories]) mail'
                 = Some (mkUser newId (normalizeEmail mail)
                           (if Js.falsy (Js.trim nm)
                            then "New Member" else Js.trim nm)
                           pwHash now freePlan
                           (mkUserSettings "USD" true false true)
                           starterCategories)).
  { rewrite (selectUserByEmail_normalized _ mail' mail Hnorm).
    unfold selectUserByEmail in *. rewrite find_app_none by exact Hnone.
    cbn [find email]. rewrite normalizeEmail_idem.
    now rewrite String.eqb_refl. }
  split.
  - unfold signIn, bind, get. cbn [users set_currentUserId set_users].
    rewrite Hsel. cbn [passwordHash]. now rewrite String.eqb_refl.
  - intros other Hne. unfold signIn, bind, get.
    cbn [users set_currentUserId set_users].
    rewrite Hsel. cbn [passwordHash].
    apply not_eq_sym in Hne. apply String.eqb_neq in Hne. now rewrite Hne.
Qed.

Lemma signUp_then_signIn_witness :
  signIn "  A@X.COM " "hash-1" annState = (Returned ann, annState).
Proof.
  destruct (signUp_then_signIn initialState "a@x.com" "  A@X.COM " "Ann"
              "hash-1" "U1" "2024-01-01T00:00:00.000Z")
    as (_ & _ & u & [Hu|[]] & _ & _ & _ & Hin & _).
  - intros u [].
  - reflexivity.
  - subst u. exact Hin.
Defined.

(** X8. The account operations read the email only through its
    normalized form: two spellings that normalize to the same address
    give the same outcome and the same final state in [signUp], [signIn]
    and [resetPassword]. *)
Theorem accounts_read_normalized_email
  (m1 m2 : string) (st : AppState) :
  normalizeEmail m1 = normalizeEmail m2 ->
  (forall nm pwHash newId now,
     signUp m1 nm pwHash newId now st = signUp m2 nm pwHash newId now st)
  /\ (forall pwHash, signIn m1 pwHash st = signIn m2 pwHash st)
  /\ (forall h, resetPassword m1 h st = resetPassword m2 h st).
Proof.
  intros H. repeat split; intros;
    unfold signUp, signIn, resetPassword, bind, get;
    rewrite (selectUserByEmail_normalized (users st) m1 m2 H);
    now rewrite ?H.
Qed.

Lemma accounts_read_normalized_email_witness :
  signIn " A@X.com" "hash-1" annState = signIn "a@x.com  " "hash-1" annState.
Proof.
  apply (accounts_read_normalized_email " A@X.com" "a@x.com  " annState).
  reflexivity.
Defined.

(** X9. [resetPassword] throws the not-found error, state unchanged, when
    no stored user matches the email.  When one does, it returns and
    changes users only; afterwards [signIn] with that email and the new
    hash returns a user with the id and email of the matched user and
    the new hash, and the state it leaves has that id as current user id
    and every other field as [resetPassword] left it. *)
Theorem resetPassword_then_signIn (st : AppState) (mail h : string) :
  ((forall u, In u (users st) -> ~ matchesEmail u mail) ->
   resetPassword mail h st = (Thrown "No account found for this email.", st))
  /\ (forall v, selectUserByEmail (users st) mail = Some v ->
      let st1 := final (resetPassword mail h st) in
      result (resetPassword mail h st) = Returned tt
      /\ sameButUsers st st1
      /\ exists u st2,
           signIn mail h st1 = (Returned u, st2)
           /\ currentUserId st2 = Some (user_id v)
           /\ users st2 = users st1 /\ receipts st2 = receipts st1
           /\ transactions st2 = transactions st1
           /\ budgets st2 = budgets st1
           /\ analyticsLog st2 = analyticsLog st1
           /\ user_id u = user_id v /\ email u = email v
           /\ passwordHash u = h).
Proof.
  split.
  - intros Hnone. apply selectUserByEmail_none in Hnone.
    unfold resetPassword, bind, get. now rewrite Hnone.
  - intros v Hv st1.
    assert (Hrun : resetPassword mail h st
                   = (Returned tt,
                      set_users
                        (map (fun u => if user_id u =? user_id v
                                       then with_passwordHash h u else u))
                        st)).
    { unfold resetPassword, bind, get. now rewrite Hv. }
    subst st1. rewrite Hrun. unfold result, final. cbn [fst snd].
    split; [reflexivity|]. split; [repeat split|].
    exists (with_passwordHash h v). eexists. split.
    { unfold signIn, bind, get. cbn [users set_users].
      unfold selectUserByEmail in *. rewrite find_map_stable.
      - rewrite Hv. cbn [option_map]. rewrite String.eqb_refl.
        cbn [passwordHash with_passwordHash]. rewrite String.eqb_refl.
        reflexivity.
      - intros x. destruct (user_id x =? user_id v); reflexivity. }
    repeat split.
Qed.

Lemma resetPassword_then_signIn_witness :
  currentUserId (final (resetPassword " A@X.com" "hash-2" signedOutState))
  = None
  /\ exists u st2,
       signIn " A@X.com" "hash-2"
         (final (resetPassword " A@X.com" "hash-2" signedOutState))
       = (Returned u, st2)
       /\ currentUserId st2 = Some "U1"
       /\ passwordHash u = "hash-2".
Proof.
  split; [reflexivity|].
  destruct (proj2 (resetPassword_then_signIn signedOutState " A@X.com"
                     "hash-2") ann eq_refl)
    as (_ & _ & u & st2 & Hin & Hcur & _ & _ & _ & _ & _ & _ & _ & Hh).
  exists u, st2. split; [exact Hin|]. split; [exact Hcur | exact Hh].
Defined.

(** X10. After a successful [signIn], [useAuth] gives the pages a user
    with the id of the user that signed in; after a [signIn] that throws
    it gives what it gave before; after [signOut] it gives none. *)
Theorem signIn_signOut_useAuth (st : AppState) (mail pwHash : string) :
  (forall v st', signIn mail pwHash st = (Returned v, st') ->
     exists u, useAuth st' = Some u /\ user_id u = user_id v)
  /\ (forall msg st', signIn mail pwHash st = (Thrown msg, st') ->
        useAuth st' = useAuth st)
  /\ useAuth (final (signOut st)) = None.
Proof.
  split; [|split]; [| |reflexivity].
  - intros v st'. unfold signIn, bind, get.
    destruct (selectUserByEmail (users st) mail) as [w|] eqn:Hw;
      [|discriminate].
    destruct (negb (passwordHash w =? pwHash)); [discriminate|].
    cbn. intros [= <- <-].
    unfold useAuth. cbn [currentUserId users set_currentUserId].
    destruct (find_by_id_exists (users st) (user_id w)) as (u & Hu & _ & Hi).
    { exists w. split; [apply (selectUserByEmail_some _ _ _ Hw) | reflexivity]. }
    exists u. now split.
  - intros msg st'. unfold signIn, bind, get.
    destruct (selectUserByEmail (users st) mail) as [w|];
      [destruct (negb (passwordHash w =? pwHash))|]; cbn;
      try discriminate; now intros [= _ <-].
Qed.

Lemma signIn_signOut_useAuth_witness :
  exists u,
    useAuth (final (signIn "a@x.com" "hash-1" (final (signOut annState))))
    = Some u /\ user_id u = "U1".
Proof.
  exact (proj1 (signIn_signOut_useAuth (final (signOut annState))
                  "a@x.com" "hash-1") ann _ eq_refl).
Defined.

(** ** Transactions and receipts *)

Lemma filter_drops_key {A} (key : A -> string) (k : string) (l : list A) :
  (forall x, In x l -> key x <> k) ->
  filter (fun y => negb (key y =? k)) l = l.
Proof.
  intros H. apply filter_all. intros x Hx.
  apply negb_true_iff, String.eqb_neq. auto.
Qed.

(** X11. Removing a transaction right after adding it gives the state
    back: when the id drawn for the new transaction is the id of no
    stored transaction and the arguments carry no receipt id (or the
    empty string), [removeTransaction] of that id after [addTransaction]
    leaves the state it started from. *)
Theorem addTransaction_then_remove
  (st : AppState) (a : TransactionArgs) (newId now : string) :
  (forall t, In t (transactions st) -> tx_id t <> newId) ->
  targ_receiptId a = None \/ targ_receiptId a = Some "" ->
  final (removeTransaction newId (final (addTransaction a newId now st)))
  = st.
Proof.
  intros Hfresh Hrid. rewrite removeTransaction_run.
  unfold addTransaction, bind, set, ret, final. cbn [fst snd].
  cbn [transactions set_transactions find]. unfold hasTxId at 1.
  cbn [tx_id]. rewrite String.eqb_refl. cbn [truthyReceiptId receiptId].
  assert (Hnone : match targ_receiptId a with
                  | Some r => if Js.falsy r then None else Some r
                  | None => None
                  end = None)
    by (destruct Hrid as [-> | ->]; reflexivity).
  rewrite Hnone.
  unfold set_transactions.
  cbn [users receipts transactions budgets analyticsLog currentUserId
       filter tx_id].
  rewrite String.eqb_refl. cbn [negb].
  rewrite (filter_drops_key tx_id newId _ Hfresh). apply state_eta.
Qed.

Lemma addTransaction_then_remove_witness :
  final (removeTransaction "T2"
           (final (addTransaction (lunchArgs None) "T2" "now"
                     (ledgerState [lunch "T1" (Some "R1")]))))
  = ledgerState [lunch "T1" (Some "R1")].
Proof.
  apply addTransaction_then_remove; [|now left].
  intros t [<-|[]]. discriminate.
Defined.

(** X12. The receipt flow of the transactions page undoes itself: when a
    receipt is added under a non-empty id that no stored receipt has,
    then a transaction is added that carries that receipt id, under an
    id that no stored transaction has, removing that transaction removes
    the receipt too and leaves the state the flow started from. *)
Theorem receipt_flow_round_trip
  (st : AppState) (fname durl rid now1 : string)
  (a : TransactionArgs) (tid now2 : string) :
  rid <> "" ->
  (forall r, In r (receipts st) -> receipt_id r <> rid) ->
  (forall t, In t (transactions st) -> tx_id t <> tid) ->
  targ_receiptId a = Some rid ->
  final (removeTransaction tid
           (final (addTransaction a tid now2
                     (final (addReceipt fname durl rid now1 st)))))
  = st.
Proof.
  intros Hne Hr Ht Ha. rewrite removeTransaction_run.
  unfold addTransaction, addReceipt, bind, set, ret, final. cbn [fst snd].
  cbn [transactions set_transactions set_receipts find].
  unfold hasTxId at 1. cbn [tx_id]. rewrite String.eqb_refl. cbn [truthyReceiptId receiptId]. rewrite Ha.
  apply JsFacts.falsy_nonempty in Hne. rewrite Hne.
  unfold set_transactions, set_receipts.
  cbn [users receipts transactions budgets analyticsLog currentUserId].
  cbn [filter tx_id]. rewrite String.eqb_refl. cbn [negb].
  rewrite (filter_drops_key tx_id tid _ Ht).
  rewrite filter_app, (filter_drops_key receipt_id rid _ Hr).
  cbn [filter receipt_id]. rewrite String.eqb_refl. cbn [negb].
  rewrite app_nil_r. apply state_eta.
Qed.

Lemma receipt_flow_round_trip_witness :
  final (removeTransaction "T2"
           (final (addTransaction (lunchArgs (Some "R2")) "T2" "now"
                     (final (addReceipt "tea.png" "data:," "R2" "now"
                               (ledgerState [lunch "T1" (Some "R1")]))))))
  = ledgerState [lunch "T1" (Some "R1")].
Proof.
  apply receipt_flow_round_trip; try reflexivity; try discriminate.
  - intros r [<-|[<-|[]]]; discriminate.
  - intros t [<-|[]]. discriminate.
Defined.

Lemma find_app_some {A} (p : A -> bool) (l l' : list A) (x : A) :
  find p l = Some x -> find p (l ++ l') = Some x.
Proof.
  induction l as [|a l IH]; simpl; [discriminate|].
  destruct (p a); [trivial | exact IH].
Qed.

(** X13. Looking a receipt image up as the transactions page does: for
    no receipt id and for the empty string there is no image; after
    [addReceipt] under a non-empty id that no stored receipt has, the
    image of that id is the data URL just stored, and the image of every
    other id is what it was; after [removeReceipt] of an id there is no
    image for it. *)
Theorem getReceiptImage_lookup
  (st : AppState) (fname durl newId now : string) :
  getReceiptImage (receipts st) None = None
  /\ getReceiptImage (receipts st) (Some "") = None
  /\ (newId <> "" ->
      (forall r, In r (receipts st) -> receipt_id r <> newId) ->
      getReceiptImage (receipts (final (addReceipt fname durl newId now st)))
                      (Some newId) = Some durl)
  /\ (forall rid, rid <> newId ->
      getReceiptImage (receipts (final (addReceipt fname durl newId now st)))
                      (Some rid)
      = getReceiptImage (receipts st) (Some rid))
  /\ (forall rid,
      getReceiptImage (receipts (final (removeReceipt rid st))) (Some rid)
      = None).
Proof.
  split; [reflexivity|]. split; [reflexivity|].
  unfold addReceipt, removeReceipt, bind, set, ret, final.
  cbn [fst snd receipts set_receipts].
  split; [|split].
  - intros Hne Hfresh. unfold getReceiptImage.
    apply JsFacts.falsy_nonempty in Hne. rewrite Hne.
    rewrite find_app_none.
    + cbn [find receipt_id]. now rewrite String.eqb_refl.
    + apply find_none_iff. intros r Hr. apply String.eqb_neq. auto.
  - intros rid Hne. unfold getReceiptImage.
    destruct (Js.falsy rid); [reflexivity|].
    destruct (find (fun receipt => receipt_id receipt =? rid) (receipts st))
      as [r|] eqn:E.
    + now rewrite (find_app_some _ _ _ _ E).
    + rewrite (find_app_none _ _ _ E). cbn [find receipt_id].
      apply not_eq_sym in Hne. apply String.eqb_neq in Hne.
      now rewrite Hne.
  - intros rid. unfold getReceiptImage.
    destruct (Js.falsy rid); [reflexivity|].
    replace (find _ (filter _ (receipts st))) with (@None Receipt);
      [reflexivity|].
    symmetry. apply find_none_iff. intros r Hr.
    apply filter_In in Hr. destruct Hr as [_ Hr].
    now apply negb_true_iff in Hr.
Qed.

Lemma getReceiptImage_lookup_witness :
  getReceiptImage
    (receipts (final (addReceipt "tea.png" "data:tea" "R2" "now"
                        (ledgerState []))))
    (Some "R2") = Some "data:tea".
Proof.
  apply (getReceiptImage_lookup (ledgerState []) "tea.png" "data:tea"
           "R2" "now"); [discriminate|].
  intros r [<-|[<-|[]]]; discriminate.
Defined.

(** X14. [updateTransaction id updates] returns and keeps the length and
    the order of the transactions; it touches nothing but transactions
    with that id, changes no other part of the state and leaves the
    state as it was when no transaction has the id.  With an object that
    carries only the keys of its declared type the id and the owner of
    every transaction stay; an [id] or [userId] key of a wider object
    replaces them in the transactions with the given id. *)
Theorem updateTransaction_frame
  (st : AppState) (id : string) (updates : TransactionUpdates) :
  let st' := final (updateTransaction id updates st) in
  result (updateTransaction id updates st) = Returned tt
  /\ Forall2 (txUpdated id updates) (transactions st) (transactions st')
  /\ (users st' = users st /\ receipts st' = receipts st
      /\ budgets st' = budgets st /\ analyticsLog st' = analyticsLog st
      /\ currentUserId st' = currentUserId st)
  /\ ((forall t, In t (transactions st) -> tx_id t <> id) -> st' = st).
Proof.
  cbn. split; [reflexivity|]. split; [|split; [repeat split|]].
  - eapply Forall2_weaken; [|apply Forall2_map_graph].
    intros t t' _ ->. unfold txUpdated.
    destruct (String.eqb_spec (tx_id t) id) as [E|E].
    + split; [intros N; contradiction|].
      unfold mergeTransaction. cbn [tx_id tx_userId].
      split; [intros H; now rewrite H|].
      split; [intros H; now rewrite H|].
      intros _. split; [intros i H | intros o H]; now rewrite H.
    + split; [reflexivity|]. split; [reflexivity|].
      split; [reflexivity|]. intros N. contradiction.
  - intros Hnone. unfold set_transactions.
    rewrite map_id_on; [apply state_eta|].
    intros t Ht. apply Hnone in Ht. apply String.eqb_neq in Ht.
    now rewrite Ht.
Qed.

Lemma updateTransaction_frame_witness :
  final (updateTransaction "T9"
           (mkTransactionUpdates (Some "T1") None None (Some "Rent") None
                                 None None None None None)
           (ledgerState [lunch "T1" None]))
  = ledgerState [lunch "T1" None]
  /\ Forall2 (txUpdated "T1"
                (mkTransactionUpdates (Some "T7") None None (Some "Rent")
                                      None None None None None None))
       [lunch "T1" None; lunch "T2" None]
       (transactions
          (final (updateTransaction "T1"
                    (mkTransactionUpdates (Some "T7") None None (Some "Rent")
                                          None None None None None None)
                    (ledgerState [lunch "T1" None; lunch "T2" None])))).
Proof.
  split.
  - apply (updateTransaction_frame (ledgerState [lunch "T1" None]) "T9").
    intros t [<-|[]]. discriminate.
  - apply (updateTransaction_frame
             (ledgerState [lunch "T1" None; lunch "T2" None]) "T1").
Defined.

(** ** Budgets: create and remove *)

(** X15. Removing a budget right after creating it gives the state back:
    when the call carries no id (or the empty string), its limit passes
    validation and the id drawn for the new budget is the id of no
    stored budget, [removeBudget] of that id after [upsertBudget] leaves
    the state it started from; and [removeBudget] of an id that no
    stored budget has changes nothing. *)
Theorem upsertBudget_then_remove
  (st : AppState) (a : BudgetArgs) (newId now : string) :
  (forall b, In b (budgets st) -> budget_id b <> newId) ->
  (Js.le (barg_limit a) Js.zero = false ->
   barg_id a = None \/ barg_id a = Some "" ->
   final (removeBudget newId (final (upsertBudget a newId now st))) = st)
  /\ final (removeBudget newId st) = st.
Proof.
  intros Hfresh.
  assert (Hnoop : final (removeBudget newId st) = st).
  { cbn. unfold set_budgets.
    rewrite (filter_drops_key budget_id newId _ Hfresh). apply state_eta. }
  split; [|exact Hnoop].
  intros Hl Hid. rewrite (upsertBudget_create st a newId now Hl Hid).
  unfold removeBudget, set, final. cbn [fst snd].
  unfold set_budgets.
  cbn [users receipts transactions budgets analyticsLog currentUserId
       filter budget_id].
  rewrite String.eqb_refl. cbn [negb].
  rewrite (filter_drops_key budget_id newId _ Hfresh). apply state_eta.
Qed.

Lemma upsertBudget_then_remove_witness :
  final (removeBudget "B2"
           (final (upsertBudget (foodBudgetArgs None "U1" 500 None)
                     "B2" "now" (budgetState foodBudget))))
  = budgetState foodBudget.
Proof.
  assert (Hfresh : forall b, In b (budgets (budgetState foodBudget)) ->
                             budget_id b <> "B2")
    by (intros b [<-|[]]; discriminate).
  apply (proj1 (upsertBudget_then_remove (budgetState foodBudget)
                  (foodBudgetArgs None "U1" 500 None) "B2" "now" Hfresh)).
  - reflexivity.
  - now left.
Defined.

(** ** Plans *)

Lemma map_idem_on {A} (f : A -> A) (l : list A) :
  (forall x, f (f x) = f x) -> map f (map f l) = map f l.
Proof. intros H. rewrite map_map. apply map_ext. exact H. Qed.

Lemma filter_idem {A} (p : A -> bool) (l : list A) :
  filter p (filter p l) = filter p l.
Proof. apply filter_filter_absorb. trivial. Qed.

(** X16. [downgradeToFree] is idempotent, and what it leaves is
    consistent: a second call in a row changes nothing, and every budget
    and every transaction that the user still owns afterwards has one of
    the first six default categories. *)
Theorem downgradeToFree_idempotent (st : AppState) (userId : string) :
  let st' := final (downgradeToFree userId st) in
  final (downgradeToFree userId st') = st'
  /\ (forall b, In b (budgets st') -> budget_userId b = userId ->
                In (budget_category b) starterCategories)
  /\ (forall t, In t (transactions st') -> tx_userId t = userId ->
                In (tx_category t) starterCategories).
Proof.
  assert (Hsurv : forall owner category,
             survivesDowngrade userId owner category = true ->
             owner = userId -> In category starterCategories).
  { intros owner category H ->. unfold survivesDowngrade in H.
    rewrite String.eqb_refl in H. cbn [negb orb] in H.
    now apply JsFacts.includes_In. }
  split; [|split].
  - unfold downgradeToFree, set, final. cbn [snd].
    unfold set_transactions, set_budgets, set_users.
    cbn [users receipts transactions budgets analyticsLog currentUserId].
    rewrite !filter_idem. f_equal.
    apply map_idem_on. intros u.
    destruct (String.eqb_spec (user_id u) userId) as [E|E].
    + cbn [with_plan user_id]. apply String.eqb_eq in E. now rewrite E.
    + apply String.eqb_neq in E. now rewrite E.
  - cbn. intros b Hb. apply filter_In in Hb. destruct Hb as [_ Hb].
    now apply Hsurv.
  - cbn. intros t Ht. apply filter_In in Ht. destruct Ht as [_ Ht].
    now apply Hsurv.
Qed.

(** X17. An upgrade followed by a downgrade gives the state back when
    nothing premium was there: every user with the id is on the free
    plan with exactly the starter categories, and every budget and
    transaction of that owner has a starter category. *)
Theorem upgrade_then_downgrade
  (st : AppState) (userId renewal : string) :
  (forall u, In u (users st) -> user_id u = userId ->
             subscription u = freePlan
             /\ categories u = starterCategories) ->
  (forall b, In b (budgets st) -> budget_userId b = userId ->
             In (budget_category b) starterCategories) ->
  (forall t, In t (transactions st) -> tx_userId t = userId ->
             In (tx_category t) starterCategories) ->
  final (downgradeToFree userId (final (upgradeToPremium userId renewal st)))
  = st.
Proof.
  intros Hu Hb Ht.
  assert (Hkeep : forall owner category,
             (owner = userId -> In category starterCategories) ->
             survivesDowngrade userId owner category = true).
  { intros owner category H. unfold survivesDowngrade.
    destruct (String.eqb_spec owner userId) as [E|E]; [|reflexivity].
    cbn [negb orb]. now apply JsFacts.includes_In, H. }
  unfold downgradeToFree, upgradeToPremium, set, final. cbn [snd].
  unfold set_transactions, set_budgets, set_users.
  cbn [users receipts transactions budgets analyticsLog currentUserId].
  rewrite (filter_all _ (budgets st)), (filter_all _ (transactions st)).
  - rewrite map_map, map_id_on; [apply state_eta|].
    intros u Hin.
    destruct (String.eqb_spec (user_id u) userId) as [E|E].
    + cbn [with_plan user_id]. apply String.eqb_eq in E. rewrite E.
      apply String.eqb_eq in E.
      destruct (Hu u Hin E) as [Hs Hc]. destruct u. cbn in *. now subst.
    + apply String.eqb_neq in E. now rewrite E.
  - intros t Hin. apply Hkeep. now apply Ht.
  - intros b Hin. apply Hkeep. now apply Hb.
Qed.

Lemma upgrade_then_downgrade_witness :
  final (downgradeToFree "U1"
           (final (upgradeToPremium "U1" "2024-02-01T00:00:00.000Z"
                     (budgetState foodBudget))))
  = budgetState foodBudget.
Proof.
  apply upgrade_then_downgrade.
  - intros u [<-|[]] _. split; reflexivity.
  - intros b [<-|[]] _. cbn. tauto.
  - intros t [].
Defined.

Lemma downgradeToFree_idempotent_witness :
  final (downgradeToFree "U1" (final (downgradeToFree "U1" premiumState)))
  = final (downgradeToFree "U1" premiumState)
  /\ In (budget_category foodBudget) starterCategories.
Proof.
  destruct (downgradeToFree_idempotent premiumState "U1") as (Hi & Hb & _).
  split; [exact Hi|].
  apply Hb; [left; reflexivity | reflexivity].
Defined.

(** ** The pages' handlers *)

Lemma addCustomCategory_trimmed (userId category : string) (st : AppState) :
  addCustomCategory userId (Js.trim category) st
  = addCustomCategory userId category st.
Proof. unfold addCustomCategory. now rewrite JsFacts.trim_idem. Qed.

(** X18. [handleAddCategory] of the budgeting page never makes the store
    throw; it leaves the store untouched when the page has no user, when
    the user is on the free tier and when the text is blank; for a
    premium user and a text that is not blank it is the store's
    [addCustomCategory] for that user and text. *)
Theorem handleAddCategory_guarded
  (st : AppState) (user : option User) (customCategory : string) :
  result (handleAddCategory user customCategory st) = Returned tt
  /\ (user = None
      \/ (exists u, user = Some u /\ tier (subscription u) = free)
      \/ Js.trim customCategory = "" ->
      final (handleAddCategory user customCategory st) = st)
  /\ (forall u, user = Some u -> tier (subscription u) = premium ->
      Js.trim customCategory <> "" ->
      handleAddCategory user customCategory st
      = addCustomCategory (user_id u) customCategory st).
Proof.
  split; [|split].
  - unfold handleAddCategory, isPremium.
    destruct user as [u|]; [|reflexivity].
    destruct (tier (subscription u)); [reflexivity|]. cbn [negb].
    destruct (Js.falsy (Js.trim customCategory)) eqn:F; [reflexivity|].
    rewrite addCustomCategory_trimmed.
    apply JsFacts.falsy_nonempty in F.
    now rewrite (addCustomCategory_run st (user_id u) customCategory F).
  - unfold handleAddCategory, isPremium.
    intros [-> | [(u & -> & Hfree) | Hblank]]; [reflexivity| |].
    + now rewrite Hfree.
    + destruct user as [u|]; [|reflexivity].
      destruct (negb _); [reflexivity|].
      apply JsFacts.falsy_empty in Hblank. now rewrite Hblank.
  - intros u -> Hp Hne. unfold handleAddCategory, isPremium.
    rewrite Hp. cbn [negb].
    apply JsFacts.falsy_nonempty in Hne. rewrite Hne.
    apply addCustomCategory_trimmed.
Qed.

Lemma handleAddCategory_guarded_witness :
  tier (subscription ann) = free
  /\ final (handleAddCategory (useAuth annState) " Pets " annState)
     = annState.
Proof.
  split; [reflexivity|].
  apply (handleAddCategory_guarded annState (useAuth annState) " Pets ").
  right. left. exists ann. split; reflexivity.
Defined.

Lemma useAuth_some (st : AppState) (u : User) :
  useAuth st = Some u ->
  currentUserId st = Some (user_id u)
  /\ find (fun candidate => user_id candidate =? user_id u) (users st)
     = Some u.
Proof.
  unfold useAuth. destruct (currentUserId st) as [id|]; [|discriminate].
  intros H. pose proof (find_some _ _ H) as [_ E].
  apply String.eqb_eq in E. subst id. now split.
Qed.

Lemma useAuth_after_map (st : AppState) (u : User) (f : User -> User) :
  useAuth st = Some u ->
  (forall x, user_id (f x) = user_id x) ->
  useAuth (set_users (map f) st) = Some (f u).
Proof.
  intros H Hid. destruct (useAuth_some st u H) as [Hc Hf].
  unfold useAuth. cbn [currentUserId users set_users]. rewrite Hc.
  rewrite find_map_stable; [now rewrite Hf|].
  intros x. now rewrite Hid.
Qed.

(** X19. The plan buttons of the profile page act on the user the page
    shows.  With [u] the user [useAuth] gives: [handleUpgrade] leaves the
    store untouched when [u] is already premium, so the renewal date is
    not moved, and otherwise [useAuth] gives afterwards that user on the
    premium plan with the missing defaults added; [handleDowngrade]
    makes [useAuth] give that user on the free plan with exactly the
    starter categories. *)
Theorem plan_buttons_current_user
  (st : AppState) (u : User) (renewal : string) :
  useAuth st = Some u ->
  (tier (subscription u) = premium ->
   final (handleUpgrade u renewal st) = st)
  /\ (tier (subscription u) = free ->
      exists u',
        useAuth (final (handleUpgrade u renewal st)) = Some u'
        /\ subscription u' = premiumPlan renewal
        /\ categories u' = withMissingDefaults (categories u)
        /\ sameButPlan u u')
  /\ (exists u',
        useAuth (final (handleDowngrade u st)) = Some u'
        /\ subscription u' = freePlan
        /\ categories u' = starterCategories
        /\ sameButPlan u u').
Proof.
  intros H. split; [|split].
  - intros Hp. unfold handleUpgrade, isPremium. now rewrite Hp.
  - intros Hf. unfold handleUpgrade, isPremium. rewrite Hf.
    unfold upgradeToPremium, set, final. cbn [snd].
    eexists. split.
    + apply (useAuth_after_map st u _ H).
      intros x. destruct (user_id x =? user_id u); reflexivity.
    + cbv beta. rewrite String.eqb_refl. cbn. repeat split.
  - unfold handleDowngrade, downgradeToFree, set, final. cbn [snd].
    eexists. split.
    + unfold useAuth.
      cbn [currentUserId users set_transactions set_budgets set_users].
      destruct (useAuth_some st u H) as [Hc Hfind]. rewrite Hc.
      rewrite find_map_stable; [rewrite Hfind; reflexivity|].
      intros x. cbv beta.
      destruct (user_id x =? user_id u) eqn:E; cbn [with_plan user_id];
        now rewrite ?E.
    + cbv beta. rewrite String.eqb_refl. cbn. repeat split.
Qed.

Lemma plan_buttons_current_user_witness :
  useAuth annState = Some ann
  /\ exists u',
       useAuth (final (handleUpgrade ann "2024-02-01T00:00:00.000Z"
                         annState)) = Some u'
       /\ subscription u' = premiumPlan "2024-02-01T00:00:00.000Z".
Proof.
  split; [reflexivity|].
  destruct (proj1 (proj2 (plan_buttons_current_user annState ann
                            "2024-02-01T00:00:00.000Z" eq_refl)) eq_refl)
    as (u' & Hu & Hs & _).
  exists u'. now split.
Defined.

(** ** Settings, categories and imports *)

Lemma mergeSettings_idem (s : UserSettings) (u : SettingsUpdates) :
  mergeSettings (mergeSettings s u) u = mergeSettings s u.
Proof.
  unfold mergeSettings. destruct u as [[c|] [n|] [d|] [h|]]; reflexivity.
Qed.

(** X20. [updateSettings] is idempotent, an update that supplies no field
    changes nothing, and what it supplies wins: afterwards every user
    with the id has each supplied setting at the supplied value and each
    other setting as before. *)
Theorem updateSettings_idempotent
  (st : AppState) (userId : string) (upd : SettingsUpdates) :
  let st' := final (updateSettings userId upd st) in
  final (updateSettings userId upd st') = st'
  /\ (upd = mkSettingsUpdates None None None None -> st' = st)
  /\ Forall2 (fun u u' =>
                user_id u = userId ->
                currency (settings u')
                = orElse (upd_currency upd) (currency (settings u))
                /\ notifications (settings u')
                   = orElse (upd_notifications upd)
                            (notifications (settings u))
                /\ darkMode (settings u')
                   = orElse (upd_darkMode upd) (darkMode (settings u))
                /\ haptics (settings u')
                   = orElse (upd_haptics upd) (haptics (settings u)))
             (users st) (users st').
Proof.
  unfold updateSettings, set, final. cbn [snd]. split; [|split].
  - unfold set_users.
    cbn [users receipts transactions budgets analyticsLog currentUserId].
    f_equal. apply map_idem_on. intros u.
    destruct (String.eqb_spec (user_id u) userId) as [E|E].
    + cbn [with_settings user_id settings]. apply String.eqb_eq in E.
      rewrite E. unfold with_settings. cbn. now rewrite mergeSettings_idem.
    + apply String.eqb_neq in E. now rewrite E.
  - intros ->. unfold set_users. rewrite map_id_on; [apply state_eta|].
    intros u _. destruct (user_id u =? userId); [|reflexivity].
    now destruct u as [? ? ? ? ? ? [] ?].
  - cbn [users set_users].
    eapply Forall2_weaken; [|apply Forall2_map_graph].
    intros u u' _ -> E. apply String.eqb_eq in E. rewrite E.
    cbn. repeat split.
Qed.

(** X21. [addCustomCategory] is idempotent: a second call in a row with
    the same user and name has the same outcome as the first and leaves
    the state the first call left. *)
Theorem addCustomCategory_idempotent
  (st : AppState) (userId category : string) :
  let st' := final (addCustomCategory userId category st) in
  result (addCustomCategory userId category st')
  = result (addCustomCategory userId category st)
  /\ final (addCustomCategory userId category st') = st'.
Proof.
  cbv zeta. unfold addCustomCategory.
  destruct (Js.falsy (Js.trim category)); [now split|].
  unfold set, result, final. cbn [fst snd]. split; [reflexivity|].
  unfold set_users.
  cbn [users receipts transactions budgets analyticsLog currentUserId].
  f_equal. apply map_idem_on. intros u. cbv beta.
  destruct (user_id u =? userId) eqn:E; cbn [andb].
  - destruct (Js.includes (categories u) (Js.trim category)) eqn:I;
      cbn [negb].
    + now rewrite E, I.
    + cbn [with_plan user_id categories]. rewrite E. cbn [andb].
      assert (I' : Js.includes (categories u ++ [Js.trim category])
                               (Js.trim category) = true).
      { apply JsFacts.includes_In, in_or_app. right. now left. }
      now rewrite I'.
  - now rewrite E.
Qed.



(** ** Totals *)

Lemma numberAdd_nan_l (y : Js.number) : numberAdd S754_nan y = S754_nan.
Proof. reflexivity. Qed.

Lemma numberAdd_nan_r (x : Js.number) : numberAdd x S754_nan = S754_nan.
Proof. now destruct x. Qed.

Lemma sum_from_nan (l : list Transaction) :
  fold_left (fun total transaction => numberAdd total (amount transaction))
            l S754_nan = S754_nan.
Proof. induction l as [|t l IH]; simpl; trivial. Qed.

Lemma sum_with_nan (l : list Transaction) (start : Js.number) :
  (exists t, In t l /\ amount t = S754_nan) ->
  fold_left (fun total transaction => numberAdd total (amount transaction))
            l start = S754_nan.
Proof.
  revert start. induction l as [|a l IH]; intros start (t & Hin & Hnan).
  - destruct Hin.
  - simpl. destruct Hin as [-> | Hin].
    + rewrite Hnan, numberAdd_nan_r. apply sum_from_nan.
    + apply IH. now exists t.
Qed.

(** X23. The totals of utils/format: [calculateTotal] reads only the
    transactions of the asked type, in their order; with none of that
    type it is 0, so that the net of no transactions is 0; and one
    transaction of the asked type whose amount is NaN makes the total,
    and with it the net, NaN. *)
Theorem calculateTotal_edges (txs : list Transaction) (ty : TransactionType) :
  calculateTotal txs ty
  = calculateTotal
      (filter (fun t => sameType (tx_type t) ty) txs) ty
  /\ ((forall t, In t txs -> tx_type t <> ty) ->
      calculateTotal txs ty = Js.zero)
  /\ calculateNet [] = Js.zero
  /\ ((exists t, In t txs /\ tx_type t = ty /\ amount t = S754_nan) ->
      calculateTotal txs ty = S754_nan /\ calculateNet txs = S754_nan).
Proof.
  split; [|split; [|split]].
  - unfold calculateTotal. now rewrite filter_idem.
  - intros Hnone. unfold calculateTotal.
    replace (filter _ txs) with (@nil Transaction); [reflexivity|].
    symmetry. induction txs as [|a l IH]; [reflexivity|]. simpl.
    assert (Ha : sameType (tx_type a) ty = false).
    { specialize (Hnone a (or_introl eq_refl)).
      destruct (tx_type a), ty; trivial; contradiction. }
    rewrite Ha. apply IH. intros t Ht. apply Hnone. now right.
  - reflexivity.
  - intros (t & Hin & Hty & Hnan).
    assert (Htot : calculateTotal txs ty = S754_nan).
    { unfold calculateTotal. apply sum_with_nan. exists t.
      split; [|exact Hnan]. apply filter_In. split; [exact Hin|].
      rewrite Hty. now destruct ty. }
    split; [exact Htot|]. unfold calculateNet, numberSub.
    destruct ty; rewrite Htot; [reflexivity|].
    now destruct (calculateTotal txs income).
Qed.

Lemma calculateTotal_edges_witness :
  calculateTotal [lunch "T1" None; brokenLunch] income = Js.zero
  /\ calculateNet [lunch "T1" None; brokenLunch] = S754_nan.
Proof.
  split.
  - apply (proj1 (proj2 (calculateTotal_edges
                           [lunch "T1" None; brokenLunch] income))).
    intros t [<-|[<-|[]]]; discriminate.
  - apply (proj2 (proj2 (proj2 (calculateTotal_edges
                                  [lunch "T1" None; brokenLunch] expense)))).
    exists brokenLunch. repeat split. right. now left.
Defined.

Lemma updateSettings_idempotent_witness :
  final (updateSettings "U1" (mkSettingsUpdates None None None None)
           annState) = annState.
Proof.
  apply (proj1 (proj2 (updateSettings_idempotent annState "U1"
                         (mkSettingsUpdates None None None None)))).
  reflexivity.
Defined.

(** ** Ids stay as they were drawn *)

Lemma map_filter_incl {A B} (key : A -> B) (p : A -> bool) (l : list A) :
  incl (map key (filter p l)) (map key l).
Proof.
  intros k Hk. apply in_map_iff in Hk. destruct Hk as (x & <- & Hx).
  apply filter_In in Hx. apply in_map. tauto.
Qed.

Lemma NoDup_map_filter {A B} (key : A -> B) (p : A -> bool) (l : list A) :
  NoDup (map key l) -> NoDup (map key (filter p l)).
Proof.
  induction l as [|a l IH]; simpl; intros N; [constructor|].
  apply NoDup_cons_iff in N. destruct N as [Na N].
  destruct (p a); simpl; auto.
  constructor; auto. intros Hin. apply Na.
  now apply (map_filter_incl key p l).
Qed.

Lemma Forall_map_filter {A B} (P : B -> Prop) (key : A -> B)
  (p : A -> bool) (l : list A) :
  Forall P (map key l) -> Forall P (map key (filter p l)).
Proof.
  rewrite !Forall_forall. intros H k Hk.
  apply H. now apply (map_filter_incl key p l).
Qed.

Lemma find_unique {A} (key : A -> string) (l : list A) (x : A) (k : string) :
  NoDup (map key l) -> In x l -> key x = k ->
  find (fun y => key y =? k) l = Some x.
Proof.
  intros N Hx Hk.
  destruct (find_exists (fun y => key y =? k) l x Hx) as [y Hy].
  { now apply String.eqb_eq. }
  rewrite Hy. f_equal.
  apply find_some in Hy. destruct Hy as [Hin E].
  apply String.eqb_eq in E.
  apply (NoDup_map_injective_on key l y x N Hin Hx). congruence.
Qed.

Lemma exec_receiptIdsSet (op : Op) (st : AppState) :
  regularCall op st -> receiptIdsSet st -> receiptIdsSet (exec op st).
Proof.
  unfold receiptIdsSet. intros R H.
  destruct op; cbn [regularCall] in R; op_cases; trivial.
  all: try solve [now apply Forall_map_filter].
  rewrite map_app. apply Forall_app. split; [exact H|].
  constructor; [apply R | constructor].
Qed.

Lemma exec_transactionIdsUnique (op : Op) (st : AppState) :
  regularCall op st -> transactionIdsUnique st ->
  transactionIdsUnique (exec op st).
Proof.
  unfold transactionIdsUnique. intros R H.
  destruct op; cbn [regularCall] in R; op_cases; trivial.
  all: try solve [now apply NoDup_map_filter].
  all: try solve [cbn [map tx_id]; constructor; [apply R | exact H]].
  - destruct R as [Ri _].
    replace (map tx_id (map _ (transactions st)))
      with (map tx_id (transactions st)); [exact H|].
    rewrite map_map. apply map_ext. intros t.
    destruct (tx_id t =? id); [|reflexivity].
    unfold mergeTransaction. cbn [tx_id]. now rewrite Ri.
  - rewrite map_app.
    match goal with
    | |- NoDup (map tx_id (generate ?u) ++ _) => destruct (R u) as [N F]
    end.
    apply NoDup_app; trivial.
    intros k Hk Hin. apply in_map_iff in Hk. destruct Hk as (t & <- & Ht).
    now apply (F t Ht).
Qed.

Lemma exec_budgetIdsUnique (op : Op) (st : AppState) :
  regularCall op st -> budgetIdsUnique st -> budgetIdsUnique (exec op st).
Proof.
  unfold budgetIdsUnique. intros R [F N].
  destruct op; cbn [regularCall] in R; op_cases; auto.
  all: try solve [split; [now apply Forall_map_filter
                         | now apply NoDup_map_filter]].
  all: try solve [cbn [map budget_id]; destruct R as [Rn Rf];
                  split; constructor; trivial].
  replace (map budget_id (map _ (budgets st)))
    with (map budget_id (budgets st)); [now split|].
  rewrite map_map. apply map_ext. intros x.
  match goal with
  | |- context [budget_id x =? ?i] =>
      destruct (String.eqb_spec (budget_id x) i) as [E|E]; [|reflexivity]
  end.
  cbn [budget_id].
  match goal with
  | Hf : find _ (budgets st) = Some ?b |- _ =>
      apply find_some in Hf; destruct Hf as [_ Hf];
      apply String.eqb_eq in Hf; congruence
  end.
Qed.

Lemma produced_ids (st : AppState) :
  produced st ->
  receiptIdsSet st /\ transactionIdsUnique st /\ budgetIdsUnique st.
Proof.
  induction 1 as [|op st _ (Hr & Ht & Hb) R].
  - repeat split; constructor.
  - split; [|split].
    + now apply exec_receiptIdsSet.
    + now apply exec_transactionIdsUnique.
    + now apply exec_budgetIdsUnique.
Qed.

Lemma produced_execAll (ops : list Op) (st : AppState) :
  produced st -> regularRun ops st -> produced (execAll ops st).
Proof.
  revert st. induction ops as [|op ops IH]; intros st H R; simpl; auto.
  destruct R as [R1 R2]. apply IH; [now constructor | exact R2].
Qed.

Lemma produced_reachable (st : AppState) : produced st -> reachable st.
Proof. induction 1; now constructor. Qed.

Lemma produced_ledgerRun : produced ledgerRun.
Proof.
  apply produced_execAll; [constructor|].
  cbn. unfold freshId. cbn. intuition discriminate.
Qed.



(** C10. In the states the store produces no budget has the empty string
    as id and no two budgets share an id.  In every such state a call of
    [upsertBudget] that supplies the id of a stored budget reads nothing
    of its [userId] argument (nor of the fresh id and the clock): when
    it returns, the budget it returns has the id, the owner and the
    creation time of that stored budget, it stands where that budget
    stood, it is the only budget with that id, and every other budget is
    kept; when it throws, the state is unchanged.  It returns as soon as
    the limit passes validation. *)
Theorem upsertBudget_keeps_owner
  (st : AppState) (a : BudgetArgs) (newId now id : string) (old : Budget) :
  (produced st -> budgetIdsUnique st)
  /\ (budgetIdsUnique st ->
      barg_id a = Some id -> In old (budgets st) -> budget_id old = id ->
      (forall owner newId' now',
         upsertBudget (with_owner owner a) newId' now' st
         = upsertBudget a newId now st)
      /\ (forall b st',
            upsertBudget a newId now st = (Returned b, st') ->
            budget_id b = id
            /\ budget_userId b = budget_userId old
            /\ budget_createdAt b = budget_createdAt old
            /\ Forall2 (replacedBy id b) (budgets st) (budgets st')
            /\ (forall x, In x (budgets st') -> budget_id x = id -> x = b)
            /\ sameButBudgets st st')
      /\ (forall msg st',
            upsertBudget a newId now st = (Thrown msg, st') -> st' = st)
      /\ (Js.le (barg_limit a) Js.zero = false ->
          exists b st', upsertBudget a newId now st = (Returned b, st'))).
Proof.
  split.
  { intros P. apply (produced_ids st P). }
  intros [Hset Huniq] Hid Hstored E.
  assert (Hne : id <> "").
  { rewrite Forall_forall in Hset. rewrite <- E. apply Hset.
    now apply in_map. }
  pose proof (find_unique budget_id (budgets st) old id Huniq Hstored E)
    as Hfind.
  destruct (upsertBudget_update_keeps_owner st a newId now id old
              Hid Hne Hfind) as (Hign & Hret & Hthrow & Hruns).
  split; [exact Hign|]. split; [|split; [exact Hthrow | exact Hruns]].
  intros b st' Hrun.
  destruct (Hret b st' Hrun) as (Hb & Ho & Hc & Hall & Hframe).
  repeat split; trivial; try apply Hframe.
  intros x Hx Ex.
  clear - Hall Hx Ex.
  induction Hall as [|y y' l l' Hy _ IH]; [destruct Hx|].
  destruct Hx as [<- | Hx]; [|now apply IH].
  destruct Hy as [[_ ->] | [Hn ->]]; [reflexivity | contradiction].
Qed.

Lemma upsertBudget_keeps_owner_witness :
  produced ledgerRun
  /\ exists b st',
       upsertBudget (foodBudgetArgs (Some "B1") "U2" 700 (Some false))
         "B2" "now" ledgerRun = (Returned b, st')
       /\ budget_userId b = "U1"
       /\ budget_createdAt b = "2024-01-02T00:00:00.000Z"
       /\ limit b = Js.ofZ 700.
Proof.
  pose proof produced_ledgerRun as P.
  split; [exact P|].
  pose proof (proj1 (upsertBudget_keeps_owner ledgerRun
                       (foodBudgetArgs (Some "B1") "U2" 700 (Some false))
                       "B2" "now" "B1" runBudget) P) as Hb.
  destruct (proj2 (upsertBudget_keeps_owner ledgerRun
                     (foodBudgetArgs (Some "B1") "U2" 700 (Some false))
                     "B2" "now" "B1" runBudget) Hb eq_refl
              (or_introl eq_refl) eq_refl)
    as (_ & Hret & _ & Hruns).
  destruct (Hruns eq_refl) as (b & st' & Hrun).
  exists b, st'. destruct (Hret b st' Hrun) as (_ & Ho & Hc & _).
  repeat split; trivial.
  revert Hrun. now intros [= <- _].
Defined.
